(** * camping.py: availability checking for recreation.gov campgrounds

    A shallow embedding of [src/camping.py] and of the parts of Python's
    [datetime], [itertools] and [dateutil.rrule] that the script calls,
    followed by the properties of the fetcher, the normalizer, the
    availability analyzer and the grouped-file driver. *)

From Stdlib Require Import ZArith List String Ascii Bool Lia Permutation Sorted.
Import ListNotations.
Local Open Scope Z_scope.

(* ================================================================= *)
(** ** The proleptic Gregorian calendar of [datetime] *)

(** The script only ever handles datetimes at a whole number of days from
    each other: the command line parses [%Y-%m-%d] (midnight), and the
    default window is [today()] and [today() + 8 months], which share
    their time of day.  A datetime is therefore modelled by its calendar
    date. *)
Record datetime : Set := mkdate { year : Z; month : Z; day : Z }.

Module Calendar.

Definition MINYEAR : Z := 1.
Definition MAXYEAR : Z := 9999.

(** [_is_leap] *)
Definition is_leap (y : Z) : bool :=
  (y mod 4 =? 0) && (negb (y mod 100 =? 0) || (y mod 400 =? 0)).

(** [_days_before_year]: days before January 1st of year [y]. *)
Definition days_before_year (y : Z) : Z :=
  let y := y - 1 in
  y * 365 + y / 4 - y / 100 + y / 400.

(** [_DAYS_IN_MONTH] *)
Definition DAYS_IN_MONTH (m : Z) : Z :=
  match m with
  | 1 => 31 | 2 => 28 | 3 => 31 | 4 => 30 | 5 => 31 | 6 => 30
  | 7 => 31 | 8 => 31 | 9 => 30 | 10 => 31 | 11 => 30 | 12 => 31
  | _ => 0
  end.

(** [_DAYS_BEFORE_MONTH] *)
Definition DAYS_BEFORE_MONTH (m : Z) : Z :=
  match m with
  | 1 => 0 | 2 => 31 | 3 => 59 | 4 => 90 | 5 => 120 | 6 => 151
  | 7 => 181 | 8 => 212 | 9 => 243 | 10 => 273 | 11 => 304 | 12 => 334
  | _ => 0
  end.

Definition b2z (b : bool) : Z := if b then 1 else 0.

(** [_days_in_month] *)
Definition days_in_month (y m : Z) : Z :=
  if (m =? 2) && is_leap y then 29 else DAYS_IN_MONTH m.

(** [_days_before_month] *)
Definition days_before_month (y m : Z) : Z :=
  DAYS_BEFORE_MONTH m + b2z ((2 <? m) && is_leap y).

(** [_ymd2ord]: January 1st of year 1 is day 1. *)
Definition ymd2ord (y m d : Z) : Z :=
  days_before_year y + days_before_month y m + d.

Definition DI400Y : Z := Eval cbv in days_before_year 401.
Definition DI100Y : Z := Eval cbv in days_before_year 101.
Definition DI4Y : Z := Eval cbv in days_before_year 5.

(** [_ord2ymd] *)
Definition ord2ymd (n : Z) : datetime :=
  let n := n - 1 in
  let n400 := n / DI400Y in
  let n := n mod DI400Y in
  let y := n400 * 400 + 1 in
  let n100 := n / DI100Y in
  let n := n mod DI100Y in
  let n4 := n / DI4Y in
  let n := n mod DI4Y in
  let n1 := n / 365 in
  let n := n mod 365 in
  let y := y + n100 * 100 + n4 * 4 + n1 in
  if (n1 =? 4) || (n100 =? 4) then mkdate (y - 1) 12 31
  else
    let leapyear := (n1 =? 3) && (negb (n4 =? 24) || (n100 =? 3)) in
    let m := Z.shiftr (n + 50) 5 in
    let preceding := DAYS_BEFORE_MONTH m + b2z ((2 <? m) && leapyear) in
    if n <? preceding then
      let m := m - 1 in
      let preceding :=
        preceding - (DAYS_IN_MONTH m + b2z ((m =? 2) && leapyear)) in
      mkdate y m (n - preceding + 1)
    else mkdate y m (n - preceding + 1).

(** The dates a [datetime] object can hold. *)
Definition valid (d : datetime) : Prop :=
  MINYEAR <= year d <= MAXYEAR /\ 1 <= month d <= 12 /\
  1 <= day d <= days_in_month (year d) (month d).

Definition validb (d : datetime) : bool :=
  (MINYEAR <=? year d) && (year d <=? MAXYEAR) &&
  (1 <=? month d) && (month d <=? 12) &&
  (1 <=? day d) && (day d <=? days_in_month (year d) (month d)).

(** [datetime.toordinal], [datetime.fromordinal], [datetime.weekday]
    (Monday is 0). *)
Definition toordinal (d : datetime) : Z := ymd2ord (year d) (month d) (day d).
Definition fromordinal (n : Z) : datetime := ord2ymd n.
Definition weekday (d : datetime) : Z := (toordinal d + 6) mod 7.

(** [datetime.max.toordinal()] *)
Definition MAXORDINAL : Z := Eval cbv in ymd2ord 9999 12 31.

End Calendar.
Import Calendar.

(** Helper views of [_ord2ymd], used by the calendar proofs: the month
    offsets that the function computes, and its last step, which turns a
    zero-based day of the year into a month and a day. *)
Definition preceding1 (leap : bool) (m : Z) : Z :=
  DAYS_BEFORE_MONTH m + b2z ((2 <? m) && leap).
Definition preceding2 (leap : bool) (m : Z) : Z :=
  preceding1 leap m - (DAYS_IN_MONTH (m - 1) + b2z ((m - 1 =? 2) && leap)).
Definition month_length (leap : bool) (m : Z) : Z :=
  if (m =? 2) && leap then 29 else DAYS_IN_MONTH m.

Definition month_day (y : Z) (leapyear : bool) (n : Z) : datetime :=
  let m := Z.shiftr (n + 50) 5 in
  if n <? preceding1 leapyear m then
    mkdate y (m - 1) (n - preceding2 leapyear m + 1)
  else mkdate y m (n - preceding1 leapyear m + 1).

Definition leap_of (b c e : Z) : bool :=
  (e =? 3) && (negb (c =? 24) || (b =? 3)).

(** Comparison of datetimes (all at the same time of day). *)
Definition date_leb (a b : datetime) : bool :=
  (year a <? year b) ||
  ((year a =? year b) &&
   ((month a <? month b) || ((month a =? month b) && (day a <=? day b)))).

(** [dt - timedelta(days=i)] and [(a - b).days]. *)
Definition sub_days (dt : datetime) (i : Z) : datetime :=
  fromordinal (toordinal dt - i).
Definition days_between (a b : datetime) : Z := toordinal a - toordinal b.

(** [dt + relativedelta(months=+k)]: the day is clipped to the length of
    the month reached. *)
Definition add_months (dt : datetime) (k : Z) : datetime :=
  let t := 12 * year dt + (month dt - 1) + k in
  let y := t / 12 in
  let m := t mod 12 + 1 in
  mkdate y m (Z.min (day dt) (days_in_month y m)).

(** [range(lo, hi)] *)
Definition range (lo hi : Z) : list Z :=
  map (fun i => lo + Z.of_nat i) (seq 0 (Z.to_nat (hi - lo))).

(* ================================================================= *)
(** ** [strftime] and [strptime] for the directives the script uses *)

Local Open Scope string_scope.
Local Open Scope list_scope.
Local Open Scope Z_scope.

Definition INPUT_DATE_FORMAT : string := "%Y-%m-%d".
Definition ISO_DATE_FORMAT_REQUEST : string := "%Y-%m-%dT00:00:00.000Z".
Definition ISO_DATE_FORMAT_RESPONSE : string := "%Y-%m-%dT00:00:00Z".

Definition digit (n : Z) : ascii := ascii_of_N (48 + Z.to_N n).

(** The value of a decimal digit.  Strings are sequences of 8-bit
    characters here, so only the ASCII digits are digits: the other
    decimal digits of Unicode, which [strptime] reads as well, are not
    characters of this model. *)
Definition digit_val (c : ascii) : option Z :=
  let n := N_of_ascii c in
  if ((48 <=? n) && (n <=? 57))%N then Some (Z.of_N (n - 48)) else None.

(** Two and four decimal digits, zero padded. *)
Definition pad2 (n : Z) (rest : string) : string :=
  String (digit (n / 10 mod 10)) (String (digit (n mod 10)) rest).
Definition pad4 (n : Z) (rest : string) : string :=
  String (digit (n / 1000 mod 10)) (String (digit (n / 100 mod 10)) (pad2 n rest)).

(** [%Y] as the C library under [strftime] writes it: the year in
    decimal without leading zeros, so that a year before 1000 takes fewer
    than four characters (a datetime's year is at most 9999). *)
Definition year_digits (n : Z) (rest : string) : string :=
  if n <? 10 then String (digit n) rest
  else if n <? 100 then pad2 n rest
  else if n <? 1000 then String (digit (n / 100 mod 10)) (pad2 n rest)
  else pad4 n rest.

(** [datetime.strftime]: directives [%Y], [%m] and [%d] (the last two
    zero padded to two digits); every other character is copied. *)
Fixpoint strftime (dt : datetime) (fmt : string) : string :=
  match fmt with
  | EmptyString => EmptyString
  | String c rest =>
      if Ascii.eqb c "%" then
        match rest with
        | EmptyString => String c EmptyString
        | String k rest' =>
            if Ascii.eqb k "Y" then year_digits (year dt) (strftime dt rest')
            else if Ascii.eqb k "m" then pad2 (month dt) (strftime dt rest')
            else if Ascii.eqb k "d" then pad2 (day dt) (strftime dt rest')
            else String c (String k (strftime dt rest'))
        end
      else String c (strftime dt rest)
  end.

(** [format_date]: it does not change the date, it only formats it. *)
Definition format_date (date_object : datetime) (format_string : string) : string :=
  strftime date_object format_string.

(** The regular expressions [_strptime] compiles the directives to:
    [%Y] is [\d\d\d\d], [%m] is [1[0-2]|0[1-9]|[1-9]] and [%d] is
    [3[0-1]|[1-2]\d|0[1-9]|[1-9]| [1-9]].  In the script's formats each
    directive is followed by a character that is not a digit, or by the
    end of the string, so the first alternative that matches is the one a
    backtracking matcher settles on. *)
Definition parse_Y (s : string) : option (Z * string) :=
  match s with
  | String c1 (String c2 (String c3 (String c4 rest))) =>
      match digit_val c1, digit_val c2, digit_val c3, digit_val c4 with
      | Some a, Some b, Some c, Some d =>
          Some (1000 * a + 100 * b + 10 * c + d, rest)
      | _, _, _, _ => None
      end
  | _ => None
  end.

Definition two_digits (ok : Z -> Z -> bool) (s : string) : option (Z * string) :=
  match s with
  | String c1 (String c2 rest) =>
      match digit_val c1, digit_val c2 with
      | Some a, Some b => if ok a b then Some (10 * a + b, rest) else None
      | _, _ => None
      end
  | _ => None
  end.

Definition one_digit (s : string) : option (Z * string) :=
  match s with
  | String c1 rest =>
      match digit_val c1 with
      | Some a => if 1 <=? a then Some (a, rest) else None
      | None => None
      end
  | _ => None
  end.

Definition or_else {A : Type} (x y : option A) : option A :=
  match x with Some _ => x | None => y end.

Definition parse_m (s : string) : option (Z * string) :=
  or_else (two_digits (fun a b => ((a =? 1) && (b <=? 2)) ||
                                  ((a =? 0) && (1 <=? b))) s)
          (one_digit s).

Definition parse_d (s : string) : option (Z * string) :=
  or_else (two_digits (fun a b => ((a =? 3) && (b <=? 1)) ||
                                  ((1 <=? a) && (a <=? 2)) ||
                                  ((a =? 0) && (1 <=? b))) s)
   (or_else (one_digit s)
      match s with
      | String c rest => if Ascii.eqb c " " then one_digit rest else None
      | EmptyString => None
      end).

(** The pattern is matched ignoring case. *)
Definition lower (c : ascii) : ascii :=
  let n := N_of_ascii c in
  if ((65 <=? n) && (n <=? 90))%N then ascii_of_N (n + 32) else c.

Definition same_letter (a b : ascii) : bool := Ascii.eqb (lower a) (lower b).

Fixpoint strptime_from (fmt s : string) (dt : datetime) : option datetime :=
  match fmt with
  | EmptyString =>
      match s with EmptyString => Some dt | String _ _ => None end
  | String c rest =>
      if Ascii.eqb c "%" then
        match rest with
        | EmptyString => None
        | String k rest' =>
            if Ascii.eqb k "Y" then
              match parse_Y s with
              | Some (v, s') => strptime_from rest' s' (mkdate v (month dt) (day dt))
              | None => None
              end
            else if Ascii.eqb k "m" then
              match parse_m s with
              | Some (v, s') => strptime_from rest' s' (mkdate (year dt) v (day dt))
              | None => None
              end
            else if Ascii.eqb k "d" then
              match parse_d s with
              | Some (v, s') => strptime_from rest' s' (mkdate (year dt) (month dt) v)
              | None => None
              end
            else None
        end
      else
        match s with
        | String c' s' => if same_letter c c' then strptime_from rest s' dt else None
        | EmptyString => None
        end
  end.

(** [datetime.strptime(s, fmt)]; [None] stands for [ValueError]: the
    string does not match, data remains, or the fields are not a date. *)
Definition strptime (s fmt : string) : option datetime :=
  match strptime_from fmt s (mkdate 1900 1 1) with
  | Some dt => if validb dt then Some dt else None
  | None => None
  end.

(** [valid_date] of the command line; [None] is the [ArgumentTypeError]. *)
Definition valid_date (s : string) : option datetime :=
  strptime s INPUT_DATE_FORMAT.

(* ================================================================= *)
(** ** Python values the script passes around *)

(** A call either returns or raises an [Exception]. *)
Inductive outcome (A : Type) : Type :=
| Returns (a : A)
| Raises.
Arguments Returns {A} a.
Arguments Raises {A}.

(** A dict keeps its items in insertion order; it is modelled by the
    list of its items. *)
Definition dict (V : Type) : Type := list (string * V).

Fixpoint dict_get {V : Type} (data : dict V) (k : string) : option V :=
  match data with
  | [] => None
  | (k', v) :: rest => if String.eqb k k' then Some v else dict_get rest k
  end.

(** [a = data.setdefault(k, []); a += v]: the list stored under [k] is
    extended in place, and a new key goes to the end. *)
Fixpoint setdefault_extend {A : Type} (data : dict (list A)) (k : string)
    (v : list A) : dict (list A) :=
  match data with
  | [] => [(k, v)]
  | (k', v') :: rest =>
      if String.eqb k k' then (k', v' ++ v) :: rest
      else (k', v') :: setdefault_extend rest k v
  end.

(** Truth value of an optional string argument. *)
Definition truthy (s : option string) : bool :=
  match s with
  | None => false
  | Some s => negb (String.eqb s "")
  end.

(** What [print] writes in the availability analyzer. *)
Inductive line : Type :=
| Option_line (ret : Z) (l_d : list string)
| Available_site_line (num_available : Z) (site : string).

(* ================================================================= *)
(** ** Fetcher and normalizer: [get_park_information] *)

(** One month payload of the availability endpoint:
    [{"campsites": {id: {"campsite_type": ..., "availabilities": {date: status}}}}]. *)
Record campsite : Type := mkcampsite {
  campsite_type_of : string;
  availabilities : dict string
}.
Record month_data : Type := mkmonth { campsites : dict campsite }.

(** An availability request: the park in the URL and the [start_date]
    parameter. *)
Record request : Type := mkrequest { req_park : Z; req_start_date : string }.

Definition DEFAULT_CAMPSITE_TYPE : string := "STANDARD NONELECTRIC".

(** [rrule(MONTHLY, dtstart, until)]: [dtstart] and then the same day of
    each following month while it is not after [until]. *)
Definition next_month (dt : datetime) : datetime :=
  if month dt =? 12 then mkdate (year dt + 1) 1 (day dt)
  else mkdate (year dt) (month dt + 1) (day dt).

Fixpoint rrule_from (fuel : nat) (cur until : datetime) : list datetime :=
  match fuel with
  | O => []
  | S fuel' =>
      if date_leb cur until then cur :: rrule_from fuel' (next_month cur) until
      else []
  end.

Definition month_index (dt : datetime) : Z := 12 * year dt + (month dt - 1).

Definition rrule_monthly (dtstart until : datetime) : list datetime :=
  rrule_from (Z.to_nat (month_index until - month_index dtstart + 2)) dtstart until.

(** The first of each month in the range. *)
Definition months_of (start_date end_date : datetime) : list datetime :=
  let start_of_month := mkdate (year start_date) (month start_date) 1 in
  rrule_monthly start_of_month end_date.

Section Fetcher.

(** [send_request] on the availability endpoint: [Returns None] when the
    status is not 200, [Raises] when the transport does. *)
Variable send_request : request -> outcome (option month_data).

(** The loop over [months]; the requests sent are recorded in order. *)
Fixpoint fetch_months (park_id : Z) (months : list datetime)
    (api_data : list month_data) (sent : list request)
    : outcome (list month_data) * list request :=
  match months with
  | [] => (Returns api_data, sent)
  | month_date :: rest =>
      let params := format_date month_date ISO_DATE_FORMAT_REQUEST in
      let rq := mkrequest park_id params in
      match send_request rq with
      | Raises => (Raises, sent ++ [rq])
      | Returns None => fetch_months park_id rest api_data (sent ++ [rq])
      | Returns (Some resp) =>
          fetch_months park_id rest (api_data ++ [resp]) (sent ++ [rq])
      end
  end.

End Fetcher.

(** The innermost loop: the dates of one campsite that pass the filters. *)
Definition available_step (campsite_type : option string)
    (campsite_data : campsite) (available : list string)
    (item : string * string) : list string :=
  let '(date, availability_value) := item in
  if negb (String.eqb availability_value "Available") then available
  else if truthy campsite_type &&
          negb (match campsite_type with
                | Some t => String.eqb t (campsite_type_of campsite_data)
                | None => false
                end)
  then available
  else available ++ [date].

Definition available_of (campsite_type : option string)
    (campsite_data : campsite) : list string :=
  fold_left (available_step campsite_type campsite_data)
            (availabilities campsite_data) [].

Definition campsite_step (campsite_type : option string)
    (data : dict (list string)) (item : string * campsite)
    : dict (list string) :=
  let '(campsite_id, campsite_data) := item in
  let available := available_of campsite_type campsite_data in
  match available with
  | [] => data
  | _ :: _ => setdefault_extend data campsite_id available
  end.

Definition month_step (campsite_type : option string)
    (data : dict (list string)) (md : month_data) : dict (list string) :=
  fold_left (campsite_step campsite_type) (campsites md) data.

(** "Collapse the data into the described output format." *)
Definition collapse (api_data : list month_data)
    (campsite_type : option string) : dict (list string) :=
  fold_left (month_step campsite_type) api_data [].

Definition get_park_information
    (send_request : request -> outcome (option month_data))
    (park_id : Z) (start_date end_date : datetime)
    (campsite_type : option string)
    : outcome (dict (list string)) * list request :=
  let months := months_of start_date end_date in
  match fetch_months send_request park_id months [] [] with
  | (Returns api_data, sent) => (Returns (collapse api_data campsite_type), sent)
  | (Raises, sent) => (Raises, sent)
  end.

(** A call that leaves [campsite_type] out. *)
Definition get_park_information_default
    (send_request : request -> outcome (option month_data))
    (park_id : Z) (start_date end_date : datetime) :=
  get_park_information send_request park_id start_date end_date
    (Some DEFAULT_CAMPSITE_TYPE).

(* ================================================================= *)
(** ** Availability analyzer *)

(** [itertools.count()] read once per element by the key function
    [lambda x: x - next(c)]: the counter is threaded through the list. *)
Fixpoint keyed (c : Z) (ordinal_dates : list Z) : list (Z * Z) :=
  match ordinal_dates with
  | [] => []
  | x :: rest => (x - c, x) :: keyed (c + 1) rest
  end.

(** [itertools.groupby] over (key, value) pairs: neighbours with equal
    keys form a group. *)
Fixpoint groupby (kvs : list (Z * Z)) : list (Z * list Z) :=
  match kvs with
  | [] => []
  | (k, x) :: rest =>
      match groupby rest with
      | (k', g) :: gs =>
          if k =? k' then (k, x :: g) :: gs else (k, [x]) :: (k', g) :: gs
      | [] => [(k, [x])]
      end
  end.

(** The list comprehension over [available]; one bad string raises. *)
Fixpoint ordinals_of (available : list string) : option (list Z) :=
  match available with
  | [] => Some []
  | dstr :: rest =>
      match strptime dstr ISO_DATE_FORMAT_RESPONSE, ordinals_of rest with
      | Some dt, Some os => Some (toordinal dt :: os)
      | _, _ => None
      end
  end.

(** The body of the loop over the groups. *)
Definition group_step (nights : Z) (st : Z * list line)
    (kg : Z * list Z) : Z * list line :=
  let '(ret, out) := st in
  let l := snd kg in
  let l_len := Z.of_nat (List.length l) in
  if nights <=? l_len then
    let ret := ret + 1 in
    let l_d := map (fun dor => format_date (fromordinal dor) INPUT_DATE_FORMAT) l in
    (ret, out ++ [Option_line ret l_d])
  else (ret, out).

(** [consecutive_nights]: "Returns whether there are `nights` worth of
    consecutive nights."  [None] is the [ValueError] of [strptime]. *)
Definition consecutive_nights (available : list string) (nights : Z)
    : option (bool * list line) :=
  match ordinals_of available with
  | None => None
  | Some ordinal_dates =>
      let groups := groupby (keyed 0 ordinal_dates) in
      let '(ret, out) := fold_left (group_step nights) groups (0, []) in
      Some (0 <? ret, out)
  end.

(** The set [dates] of [get_num_available_sites]. *)
Definition desired_dates (start_date end_date : datetime) : list string :=
  let num_days := days_between end_date start_date in
  let dates0 := map (fun i => sub_days end_date i) (range 1 (num_days + 1)) in
  let dates := filter (fun d => (3 <? weekday d) && (weekday d <=? 6)) dates0 in
  map (fun i => format_date i ISO_DATE_FORMAT_RESPONSE) dates.

Definition mem (s : string) (l : list string) : bool := existsb (String.eqb s) l.

(** [nights not in range(1, num_days + 1)] and the assignment under it. *)
Definition effective_nights (nights : option Z) (num_days : Z) : Z :=
  match nights with
  | Some n => if (1 <=? n) && (n <? num_days + 1) then n else num_days
  | None => num_days
  end.

(** The body of the loop over the sites; [None] when
    [consecutive_nights] raises. *)
Definition site_step (dates : list string) (nights : Z)
    (st : option (Z * list line)) (item : string * list string)
    : option (Z * list line) :=
  match st with
  | None => None
  | Some (num_available, out) =>
      let '(site, availabilities) := item in
      let desired_available := filter (fun date => mem date dates) availabilities in
      match desired_available with
      | [] => Some (num_available, out)
      | _ :: _ =>
          match consecutive_nights desired_available nights with
          | None => None
          | Some (true, printed) =>
              let num_available := num_available + 1 in
              Some (num_available,
                    out ++ printed ++ [Available_site_line num_available site])
          | Some (false, printed) => Some (num_available, out ++ printed)
          end
      end
  end.

Definition get_num_available_sites (park_information : dict (list string))
    (start_date end_date : datetime) (nights : option Z)
    : option ((Z * Z) * list line) :=
  let maximum := Z.of_nat (List.length park_information) in
  let num_days := days_between end_date start_date in
  let dates := desired_dates start_date end_date in
  let nights := effective_nights nights num_days in
  match fold_left (site_step dates nights) park_information (Some (0, [])) with
  | Some (num_available, out) => Some ((num_available, maximum), out)
  | None => None
  end.

(* ================================================================= *)
(** ** [main] and the two ways of running it *)

Record arguments : Type := mkargs {
  arg_start_date : option datetime;
  arg_end_date : option datetime;
  arg_nights : option Z;
  arg_campsite_type : option string
}.

Section Main.

Variable args : arguments.
Variable today : datetime.
Variable send_request : request -> outcome (option month_data).
(** [get_name_of_site]: the facility name, [None] when the request
    fails. *)
Variable get_name_of_site : Z -> outcome (option string).

Definition window : datetime * datetime :=
  match arg_start_date args, arg_end_date args with
  | Some s, Some e => (s, e)
  | _, _ => (today, add_months today 8)
  end.

Fixpoint main_loop (parks : list Z) (availabilities : bool) : outcome bool :=
  match parks with
  | [] => Returns availabilities
  | park_id :: rest =>
      let '(start_date, end_date) := window in
      match fst (get_park_information send_request park_id start_date
                   end_date (arg_campsite_type args)) with
      | Raises => Raises
      | Returns park_information =>
          match get_name_of_site park_id with
          | Raises => Raises
          | Returns None => main_loop rest availabilities
          | Returns (Some _) =>
              match get_num_available_sites park_information start_date
                      end_date (arg_nights args) with
              | None => Raises
              | Some ((current, _), _) =>
                  main_loop rest
                    (if current =? 0 then availabilities else true)
              end
          end
      end
  end.

Definition main (parks : list Z) : outcome bool := main_loop parks false.

(** Grouped-file mode: the loop over [parks_dict.keys()] and the value
    given to [sys.exit]. *)
Definition group_code (code : Z) (group : string * list Z) : Z :=
  match main (snd group) with
  | Returns true => code + 0
  | Returns false => code + 1
  | Raises => code
  end.

Definition run_groups (parks_dict : dict (list Z)) : Z :=
  fold_left group_code parks_dict 0.

(** A group that [main] processed to the end without finding a site. *)
Definition no_availability (group : string * list Z) : bool :=
  match main (snd group) with
  | Returns false => true
  | _ => false
  end.

(** Park-list mode: the exit code, or the exception raised again. *)
Definition run_parks (parks : list Z) : outcome Z :=
  match main parks with
  | Returns true => Returns 0
  | Returns false => Returns 1
  | Raises => Raises
  end.

End Main.

(* ================================================================= *)
(** ** Reference notions the properties are stated with *)

(** Maximal runs of neighbours that each exceed the previous by one. *)
Fixpoint runs (l : list Z) : list (list Z) :=
  match l with
  | [] => []
  | x :: rest =>
      match runs rest with
      | (y :: r) :: rs =>
          if y =? x + 1 then (x :: y :: r) :: rs else [x] :: (y :: r) :: rs
      | _ => [[x]]
      end
  end.

(** [x; x+1; ...]: consecutive days in ascending order. *)
Fixpoint consecutive (l : list Z) : Prop :=
  match l with
  | [] => True
  | x :: rest =>
      match rest with
      | [] => True
      | y :: _ => y = x + 1 /\ consecutive rest
      end
  end.

(** The qualification as the specification describes it, to compare
    [consecutive_nights] with: "convert each date to an ordinal day
    number, sort, and partition into maximal runs of consecutive
    ordinals".  [consecutive_nights] itself has no sorting step. *)
Fixpoint insert_sorted (x : Z) (l : list Z) : list Z :=
  match l with
  | [] => [x]
  | y :: rest => if x <=? y then x :: l else y :: insert_sorted x rest
  end.
Definition sorted (l : list Z) : list Z := fold_right insert_sorted [] l.
Definition spec_qualifies (ordinal_dates : list Z) (nights : Z) : bool :=
  existsb (fun r => nights <=? Z.of_nat (List.length r)) (runs (sorted ordinal_dates)).

(** A run of [n] consecutive days starting at [a], inside a set of
    ordinals, and one that cannot be extended. *)
Definition is_run (S : list Z) (a n : Z) : Prop :=
  1 <= n /\ forall k, 0 <= k < n -> In (a + k) S.
Definition is_maximal_run (S : list Z) (a n : Z) : Prop :=
  is_run S a n /\ ~ In (a - 1) S /\ ~ In (a + n) S.

(** Neighbouring runs cannot be joined into one. *)
Fixpoint separated (rs : list (list Z)) : Prop :=
  match rs with
  | [] => True
  | r1 :: rest =>
      match rest with
      | [] => True
      | r2 :: _ => hd 0 r2 <> last r1 0 + 1 /\ separated rest
      end
  end.

(** What the loop of [consecutive_nights] prints for a list of groups:
    one line per group of length at least [nights], numbered after
    [ret]. *)
Fixpoint option_lines (nights ret : Z) (rs : list (list Z)) : list line :=
  match rs with
  | [] => []
  | r :: rest =>
      if nights <=? Z.of_nat (List.length r) then
        Option_line (ret + 1)
          (map (fun dor => format_date (fromordinal dor) INPUT_DATE_FORMAT) r)
        :: option_lines nights (ret + 1) rest
      else option_lines nights ret rest
  end.

Definition long_enough (nights : Z) (r : list Z) : bool :=
  nights <=? Z.of_nat (List.length r).

(** Whether the loop of [get_num_available_sites] counts a site with
    these availabilities. *)
Definition site_counted (dates : list string) (nights : Z)
    (availabilities : list string) : bool :=
  match filter (fun date => mem date dates) availabilities with
  | [] => false
  | desired_available =>
      match consecutive_nights desired_available nights with
      | Some (true, _) => true
      | _ => false
      end
  end.

(** The list stored for a site, empty when the site is not a key. *)
Definition dates_of (data : dict (list string)) (site : string) : list string :=
  match dict_get data site with
  | Some ds => ds
  | None => []
  end.

(** The type test of the normalizer: it passes when no filter is given,
    when the filter is the empty string, and when the filter is the
    campsite's type. *)
Definition type_okb (campsite_type : option string) (campsite_data : campsite)
    : bool :=
  match campsite_type with
  | None => true
  | Some t => String.eqb t "" || String.eqb t (campsite_type_of campsite_data)
  end.

Definition type_ok (campsite_type : option string) (campsite_data : campsite)
    : Prop :=
  forall t, campsite_type = Some t -> t <> "" ->
    campsite_type_of campsite_data = t.

(** A date of a site that some month payload marks "Available", on a
    campsite entry whose type passes the filter. *)
Definition contributes (api_data : list month_data)
    (campsite_type : option string) (site date : string) : Prop :=
  exists md campsite_data,
    In md api_data /\ In (site, campsite_data) (campsites md) /\
    In (date, "Available") (availabilities campsite_data) /\
    type_ok campsite_type campsite_data.

(** No key of the dict holds an empty list. *)
Definition no_empty (data : dict (list string)) : Prop :=
  forall site ds, dict_get data site = Some ds -> ds <> [].

(** A date of a site that some month payload marks "Available". *)
Definition available_somewhere (api_data : list month_data)
    (site date : string) : Prop :=
  exists md campsite_data,
    In md api_data /\ In (site, campsite_data) (campsites md) /\
    In (date, "Available") (availabilities campsite_data).

(** The first day of the month with index [12 * year + (month - 1)]. *)
Definition first_of_month (i : Z) : datetime := mkdate (i / 12) (i mod 12 + 1) 1.

(** The request the fetcher sends for a month. *)
Definition month_request (park_id : Z) (month_date : datetime) : request :=
  mkrequest park_id (format_date month_date ISO_DATE_FORMAT_REQUEST).

(** The day set as the specification words it: the days after the start
    day up to and including the end day, Friday to Sunday. *)
Definition claimed_day_set (start_date end_date d : datetime) : Prop :=
  In (format_date d ISO_DATE_FORMAT_RESPONSE) (desired_dates start_date end_date)
  <-> (toordinal start_date < toordinal d <= toordinal end_date /\
       4 <= weekday d <= 6).

(** What the loop over the months appends to [api_data] for one month:
    the payload, or nothing when the status is not 200. *)
Definition kept_reply (send_request : request -> outcome (option month_data))
    (park_id : Z) (month_date : datetime) : list month_data :=
  match send_request (month_request park_id month_date) with
  | Returns (Some resp) => [resp]
  | _ => []
  end.

(** The "Available site" lines of an output, as (number, site) pairs. *)
Definition site_lines (out : list line) : list (Z * string) :=
  flat_map (fun l => match l with
                     | Available_site_line k site => [(k, site)]
                     | Option_line _ _ => []
                     end) out.

(** The sites [l], numbered from [n + 1]. *)
Fixpoint numbered (n : Z) (l : list string) : list (Z * string) :=
  match l with
  | [] => []
  | site :: rest => (n + 1, site) :: numbered (n + 1) rest
  end.

(** The map with, for each site, only its dates of the day set. *)
Definition restrict (dates : list string)
    (park_information : dict (list string)) : dict (list string) :=
  map (fun item => (fst item, filter (fun date => mem date dates) (snd item)))
      park_information.

(** A reader for the year as [format_date] writes it, one to four
    digits, and for a whole formatted date; they serve to show that the
    string [format_date] writes determines the date, also where
    [strptime] does not read it. *)
Definition read_year (s : string) : option (Z * string) :=
  match s with
  | String c1 r1 =>
      match digit_val c1, r1 with
      | None, _ => None
      | Some a, String c2 r2 =>
          match digit_val c2, r2 with
          | None, _ => Some (a, r1)
          | Some b, String c3 r3 =>
              match digit_val c3, r3 with
              | None, _ => Some (10 * a + b, r2)
              | Some c, String c4 r4 =>
                  match digit_val c4 with
                  | None => Some (100 * a + 10 * b + c, r3)
                  | Some e => Some (1000 * a + 100 * b + 10 * c + e, r4)
                  end
              | Some c, EmptyString => Some (100 * a + 10 * b + c, r3)
              end
          | Some b, EmptyString => Some (10 * a + b, r2)
          end
      | Some a, EmptyString => Some (a, r1)
      end
  | EmptyString => None
  end.

Definition read_date (fmt s : string) : option datetime :=
  match read_year s with
  | Some (y, rest) => strptime_from fmt rest (mkdate y 1 1)
  | None => None
  end.

(** Whether the intersected dates of a site all parse, that is, whether
    the loop body of [get_num_available_sites] returns on the site. *)
Definition site_parses (dates : list string) (availabilities : list string)
    : bool :=
  match ordinals_of (filter (fun date => mem date dates) availabilities) with
  | Some _ => true
  | None => false
  end.

(* ================================================================= *)
(** * Properties *)

(** ** The calendar: ordinals and dates determine each other *)

Ltac month_cases m H :=
  let H' := fresh in
  assert (H' : m = 1 \/ m = 2 \/ m = 3 \/ m = 4 \/ m = 5 \/ m = 6 \/
               m = 7 \/ m = 8 \/ m = 9 \/ m = 10 \/ m = 11 \/ m = 12) by lia;
  clear H;
  destruct H' as [->|[->|[->|[->|[->|[->|[->|[->|[->|[->|[->| ->]]]]]]]]]]].

Ltac is_closed t :=
  match t with
  | context [?v] => is_var v; fail 1
  | _ => idtac
  end.

(** Replace the calls of [f] on constants by their values. *)
Ltac eval_closed f :=
  repeat match goal with
    | |- context [f ?a ?b] =>
        is_closed a; is_closed b;
        let v := eval cbv in (f a b) in change (f a b) with v
    | H : context [f ?a ?b] |- _ =>
        is_closed a; is_closed b;
        let v := eval cbv in (f a b) in change (f a b) with v in H
    end.

Ltac divmod := Z.div_mod_to_equations; lia.

Lemma year_decomp y : 1 <= y ->
  exists a b c e, 0 <= a /\ 0 <= b <= 3 /\ 0 <= c <= 24 /\ 0 <= e <= 3 /\
    y = 400 * a + 100 * b + 4 * c + e + 1.
Proof.
  intros Hy.
  exists ((y - 1) / 400), ((y - 1) mod 400 / 100),
    ((y - 1) mod 100 / 4), ((y - 1) mod 4).
  divmod.
Qed.

Lemma days_before_year_decomp a b c e :
  0 <= a -> 0 <= b <= 3 -> 0 <= c <= 24 -> 0 <= e <= 3 ->
  days_before_year (400 * a + 100 * b + 4 * c + e + 1) =
  DI400Y * a + DI100Y * b + DI4Y * c + 365 * e.
Proof.
  intros. unfold days_before_year, DI400Y, DI100Y, DI4Y. divmod.
Qed.

Lemma is_leap_decomp a b c e :
  0 <= a -> 0 <= b <= 3 -> 0 <= c <= 24 -> 0 <= e <= 3 ->
  is_leap (400 * a + 100 * b + 4 * c + e + 1) = leap_of b c e.
Proof.
  intros Ha Hb Hc He. unfold is_leap, leap_of.
  set (y := 400 * a + 100 * b + 4 * c + e + 1).
  assert (Hm4 : y mod 4 = (e + 1) mod 4) by (subst y; divmod).
  assert (Hm100 : y mod 100 = (4 * c + e + 1) mod 100) by (subst y; divmod).
  assert (Hm400 : y mod 400 = (100 * b + 4 * c + e + 1) mod 400)
    by (subst y; divmod).
  rewrite Hm4, Hm100, Hm400. clear y Hm4 Hm100 Hm400.
  assert (H : e = 0 \/ e = 1 \/ e = 2 \/ e = 3) by lia.
  destruct H as [-> | [-> | [-> | ->]]]; try reflexivity.
  change ((3 + 1) mod 4 =? 0) with true. change (3 =? 3) with true.
  cbn [andb].
  destruct (Z.eqb_spec c 24) as [-> | Hc24].
  - assert (H : b = 0 \/ b = 1 \/ b = 2 \/ b = 3) by lia.
    destruct H as [-> | [-> | [-> | ->]]]; reflexivity.
  - cbn [negb orb].
    destruct (Z.eqb_spec ((4 * c + 3 + 1) mod 100) 0) as [E | E];
      [exfalso; divmod | reflexivity].
Qed.

Lemma leap_of_true b c e :
  leap_of b c e = true -> e = 3 /\ (c <> 24 \/ b = 3).
Proof.
  unfold leap_of. intros H. apply andb_prop in H as [H1 H2].
  apply Z.eqb_eq in H1. split; [exact H1|].
  apply orb_prop in H2 as [H2 | H2].
  - left. apply negb_true_iff, Z.eqb_neq in H2. exact H2.
  - right. apply Z.eqb_eq in H2. exact H2.
Qed.

(** [_ord2ymd] on the day [k] (from zero) of the year
    [400 a + 100 b + 4 c + e + 1]: the last day of a leap year takes the
    early return, every other day goes through [month_day]. *)
Lemma ord2ymd_decomp a b c e k :
  0 <= a -> 0 <= b <= 3 -> 0 <= c <= 24 -> 0 <= e <= 3 ->
  0 <= k < 365 + b2z (leap_of b c e) ->
  ord2ymd (DI400Y * a + DI100Y * b + DI4Y * c + 365 * e + k + 1) =
  if k =? 365 then mkdate (400 * a + 100 * b + 4 * c + e + 1) 12 31
  else month_day (400 * a + 100 * b + 4 * c + e + 1) (leap_of b c e) k.
Proof.
  intros Ha Hb Hc He Hk.
  unfold ord2ymd.
  set (n := DI400Y * a + DI100Y * b + DI4Y * c + 365 * e + k + 1 - 1).
  assert (Hk' : k < 365 \/ (k = 365 /\ e = 3 /\ (c <> 24 \/ b = 3))).
  { destruct (leap_of b c e) eqn:L; cbn [b2z] in Hk; [|lia].
    destruct (leap_of_true _ _ _ L). lia. }
  unfold DI400Y, DI100Y, DI4Y in *.
  assert (H400 : n / 146097 = a) by (subst n; divmod).
  assert (R400 : n mod 146097 = 36524 * b + 1461 * c + 365 * e + k)
    by (subst n; divmod).
  rewrite H400, R400. clear n H400 R400.
  destruct Hk' as [Hlt | (-> & -> & Hcb)].
  - assert (H100 : (36524 * b + 1461 * c + 365 * e + k) / 36524 = b) by divmod.
    assert (R100 : (36524 * b + 1461 * c + 365 * e + k) mod 36524 =
                   1461 * c + 365 * e + k) by divmod.
    rewrite H100, R100.
    assert (H4 : (1461 * c + 365 * e + k) / 1461 = c) by divmod.
    assert (R4 : (1461 * c + 365 * e + k) mod 1461 = 365 * e + k) by divmod.
    rewrite H4, R4.
    assert (H1 : (365 * e + k) / 365 = e) by divmod.
    assert (R1 : (365 * e + k) mod 365 = k) by divmod.
    rewrite H1, R1.
    replace (e =? 4) with false by (symmetry; apply Z.eqb_neq; lia).
    replace (b =? 4) with false by (symmetry; apply Z.eqb_neq; lia).
    replace (k =? 365) with false by (symmetry; apply Z.eqb_neq; lia).
    cbn [orb]. fold (leap_of b c e).
    replace (a * 400 + 1 + b * 100 + c * 4 + e)
      with (400 * a + 100 * b + 4 * c + e + 1) by lia.
    reflexivity.
  - change (365 =? 365) with true. cbv iota.
    assert (Hc' : c < 24 \/ (c = 24 /\ b = 3)) by lia.
    destruct Hc' as [Hc' | [-> ->]].
    + assert (H100 : (36524 * b + 1461 * c + 365 * 3 + 365) / 36524 = b)
        by divmod.
      assert (R100 : (36524 * b + 1461 * c + 365 * 3 + 365) mod 36524 =
                     1461 * c + 1460) by divmod.
      rewrite H100, R100.
      assert (H4 : (1461 * c + 1460) / 1461 = c) by divmod.
      assert (R4 : (1461 * c + 1460) mod 1461 = 1460) by divmod.
      rewrite H4, R4.
      change (1460 / 365) with 4. change (4 =? 4) with true. cbn [orb].
      f_equal. lia.
    + change ((36524 * 3 + 1461 * 24 + 365 * 3 + 365) / 36524) with 4.
      change (4 =? 4) with true. rewrite orb_true_r. f_equal.
      change ((36524 * 3 + 1461 * 24 + 365 * 3 + 365) mod 36524) with 0.
      change (0 mod 1461) with 0. change (0 / 1461) with 0.
      change (0 / 365) with 0. lia.
Qed.

Lemma shiftr5 n : Z.shiftr n 5 = n / 32.
Proof. rewrite Z.shiftr_div_pow2 by lia. reflexivity. Qed.

Lemma month_day_of_ymd y leap m d :
  1 <= m <= 12 -> 1 <= d <= month_length leap m ->
  month_day y leap (preceding1 leap m + d - 1) = mkdate y m d.
Proof.
  intros Hm Hd. unfold month_day. rewrite shiftr5.
  month_cases m Hm; destruct leap;
    eval_closed month_length; eval_closed preceding1.
  all: match goal with
       | |- context [(?n + 50) / 32] =>
           let q := fresh "q" in
           let Hq := fresh "Hq" in
           let Hq' := fresh "Hq'" in
           remember ((n + 50) / 32) as q eqn:Hq;
           assert (1 <= q <= 12) as Hq' by (subst q; divmod);
           month_cases q Hq'
       end.
  all: try (exfalso; divmod).
  all: eval_closed preceding1; eval_closed preceding2.
  all: match goal with
       | |- (if ?c then _ else _) = _ =>
           let E := fresh in
           destruct c eqn:E;
           [ apply Z.ltb_lt in E | apply Z.ltb_ge in E ];
           try (exfalso; divmod)
       end.
  all: f_equal; lia.
Qed.

Lemma month_day_valid y leap k :
  0 <= k < 365 ->
  exists m d, month_day y leap k = mkdate y m d /\
    1 <= m <= 12 /\ 1 <= d <= month_length leap m /\
    preceding1 leap m + d - 1 = k.
Proof.
  intros Hk. unfold month_day. rewrite shiftr5.
  remember ((k + 50) / 32) as q eqn:Hq.
  assert (Hq' : 1 <= q <= 12) by (subst q; divmod).
  month_cases q Hq'; destruct leap;
    eval_closed preceding1; eval_closed preceding2.
  all: match goal with
       | |- exists _ _, (if ?c then _ else _) = _ /\ _ =>
           let E := fresh in
           destruct c eqn:E;
           [ apply Z.ltb_lt in E | apply Z.ltb_ge in E ]
       end.
  all: try (exfalso; divmod).
  all: eexists _, _; (split; [reflexivity|]).
  all: eval_closed Z.sub.
  all: eval_closed month_length; eval_closed preceding1; divmod.
Qed.

Lemma days_in_month_length y m : days_in_month y m = month_length (is_leap y) m.
Proof. reflexivity. Qed.

Lemma days_before_month_preceding y m :
  days_before_month y m = preceding1 (is_leap y) m.
Proof. reflexivity. Qed.

Lemma preceding1_bounds leap m d :
  1 <= m <= 12 -> 1 <= d <= month_length leap m ->
  0 <= preceding1 leap m + d - 1 < 365 + b2z leap.
Proof.
  intros Hm Hd.
  month_cases m Hm; destruct leap;
    eval_closed month_length; eval_closed preceding1; cbn [b2z]; lia.
Qed.

(** [fromordinal (toordinal d) = d] for every date. *)
Lemma fromordinal_toordinal d : valid d -> fromordinal (toordinal d) = d.
Proof.
  destruct d as [y m d]. unfold valid, MINYEAR, MAXYEAR. cbn [year month day].
  intros (Hy & Hm & Hd).
  unfold fromordinal, toordinal, ymd2ord. cbn [year month day].
  destruct (year_decomp y ltac:(lia)) as (a & b & c & e & Ha & Hb & Hc & He & ->).
  rewrite days_in_month_length in Hd. rewrite days_before_month_preceding.
  rewrite is_leap_decomp in * by assumption.
  rewrite days_before_year_decomp by assumption.
  pose proof (preceding1_bounds _ _ _ Hm Hd) as Hk.
  replace (DI400Y * a + DI100Y * b + DI4Y * c + 365 * e +
           preceding1 (leap_of b c e) m + d)
    with (DI400Y * a + DI100Y * b + DI4Y * c + 365 * e +
          (preceding1 (leap_of b c e) m + d - 1) + 1) by lia.
  rewrite ord2ymd_decomp by assumption.
  destruct (Z.eqb_spec (preceding1 (leap_of b c e) m + d - 1) 365) as [E | E].
  - (* only December 31st of a leap year is day 365 *)
    assert (m = 12 /\ d = 31) as [-> ->].
    { revert Hd E. month_cases m Hm; destruct (leap_of b c e);
        eval_closed month_length; eval_closed preceding1; lia. }
    reflexivity.
  - apply month_day_of_ymd; assumption.
Qed.

Lemma ordinal_decomp n : 0 <= n ->
  exists a b c e k, 0 <= a /\ 0 <= b <= 3 /\ 0 <= c <= 24 /\ 0 <= e <= 3 /\
    0 <= k < 365 + b2z (leap_of b c e) /\
    n = DI400Y * a + DI100Y * b + DI4Y * c + 365 * e + k.
Proof.
  intros Hn. unfold DI400Y, DI100Y, DI4Y.
  set (a := n / 146097). set (r := n mod 146097).
  assert (Hr : 0 <= r < 146097 /\ n = 146097 * a + r) by (subst a r; divmod).
  clearbody a r. destruct Hr as [Hr ->].
  destruct (Z.eq_dec r 146096) as [-> | Hr'].
  { exists a, 3, 24, 3, 365. cbn. lia. }
  set (b := r / 36524). set (r2 := r mod 36524).
  assert (Hr2 : 0 <= r2 < 36524 /\ r = 36524 * b + r2 /\ 0 <= b <= 3)
    by (subst b r2; divmod).
  clearbody b r2. destruct Hr2 as (Hr2 & -> & Hb).
  set (c := r2 / 1461). set (r3 := r2 mod 1461).
  assert (Hr3 : 0 <= r3 < 1461 /\ r2 = 1461 * c + r3 /\ 0 <= c <= 24)
    by (subst c r3; divmod).
  clearbody c r3. destruct Hr3 as (Hr3 & -> & Hc).
  destruct (Z.eq_dec r3 1460) as [-> | Hr3'].
  { exists a, b, c, 3, 365.
    assert (L : leap_of b c 3 = true).
    { unfold leap_of. change (3 =? 3) with true. cbn [andb].
      apply orb_true_iff. left. apply negb_true_iff, Z.eqb_neq. lia. }
    rewrite L. cbn [b2z]. lia. }
  exists a, b, c, (r3 / 365), (r3 mod 365).
  assert (0 <= r3 / 365 <= 3 /\ 0 <= r3 mod 365 < 365 /\
          r3 = 365 * (r3 / 365) + r3 mod 365) by divmod.
  destruct (leap_of b c (r3 / 365)); cbn [b2z]; lia.
Qed.

(** [fromordinal n] is a date, and [toordinal] gives [n] back. *)
Lemma toordinal_fromordinal n :
  1 <= n <= MAXORDINAL ->
  valid (fromordinal n) /\ toordinal (fromordinal n) = n.
Proof.
  unfold MAXORDINAL. intros Hn.
  destruct (ordinal_decomp (n - 1) ltac:(lia))
    as (a & b & c & e & k & Ha & Hb & Hc & He & Hk & E).
  assert (Hy : 400 * a + 100 * b + 4 * c + e + 1 <= 9999).
  { unfold DI400Y, DI100Y, DI4Y in E. lia. }
  replace n with (DI400Y * a + DI100Y * b + DI4Y * c + 365 * e + k + 1) by lia.
  unfold fromordinal. rewrite ord2ymd_decomp by assumption.
  set (y := 400 * a + 100 * b + 4 * c + e + 1) in *.
  assert (Hdby : days_before_year y =
                 DI400Y * a + DI100Y * b + DI4Y * c + 365 * e)
    by (apply days_before_year_decomp; assumption).
  assert (Hleap : is_leap y = leap_of b c e)
    by (apply is_leap_decomp; assumption).
  destruct (Z.eqb_spec k 365) as [-> | Hk'].
  - assert (L : leap_of b c e = true)
      by (destruct (leap_of b c e); cbn [b2z] in Hk; [reflexivity | lia]).
    unfold valid, toordinal, ymd2ord, MINYEAR, MAXYEAR. cbn [year month day].
    rewrite days_in_month_length, days_before_month_preceding, Hleap, L, Hdby.
    eval_closed month_length. eval_closed preceding1. lia.
  - assert (Hk2 : 0 <= k < 365)
      by (destruct (leap_of b c e); cbn [b2z] in Hk; lia).
    destruct (month_day_valid y (leap_of b c e) k Hk2)
      as (m & d & -> & Hm & Hd & Hpre).
    unfold valid, toordinal, ymd2ord, MINYEAR, MAXYEAR. cbn [year month day].
    rewrite days_in_month_length, days_before_month_preceding, Hleap, Hdby.
    lia.
Qed.

Lemma toordinal_range d : valid d -> 1 <= toordinal d <= MAXORDINAL.
Proof.
  destruct d as [y m d]. unfold valid, MINYEAR, MAXYEAR, MAXORDINAL.
  cbn [year month day]. intros (Hy & Hm & Hd).
  unfold toordinal, ymd2ord. cbn [year month day].
  destruct (year_decomp y ltac:(lia)) as (a & b & c & e & Ha & Hb & Hc & He & ->).
  rewrite days_in_month_length in Hd. rewrite days_before_month_preceding.
  rewrite is_leap_decomp in * by assumption.
  rewrite days_before_year_decomp by assumption.
  pose proof (preceding1_bounds _ _ _ Hm Hd) as Hk.
  unfold DI400Y, DI100Y, DI4Y.
  assert (b2z (leap_of b c e) <= 1) by (destruct (leap_of b c e); cbn; lia).
  assert (leap_of b c e = true -> e = 3) by (intros L; apply leap_of_true in L; tauto).
  destruct (leap_of b c e); cbn [b2z] in *; [assert (e = 3) by auto|]; lia.
Qed.

Lemma validb_valid d : validb d = true <-> valid d.
Proof.
  unfold validb, valid. rewrite !andb_true_iff, !Z.leb_le. tauto.
Qed.

Lemma toordinal_inj d1 d2 :
  valid d1 -> valid d2 -> toordinal d1 = toordinal d2 -> d1 = d2.
Proof.
  intros H1 H2 E.
  rewrite <- (fromordinal_toordinal d1 H1), <- (fromordinal_toordinal d2 H2).
  now rewrite E.
Qed.

(** *** Ordinals follow the calendar *)

Lemma days_before_year_succ y :
  days_before_year (y + 1) = days_before_year y + 365 + b2z (is_leap y).
Proof.
  unfold days_before_year, is_leap.
  replace (y + 1 - 1) with y by lia.
  destruct (Z.eqb_spec (y mod 4) 0), (Z.eqb_spec (y mod 100) 0),
           (Z.eqb_spec (y mod 400) 0); cbn [andb orb negb b2z]; divmod.
Qed.

Lemma days_before_year_mono y1 y2 :
  y1 < y2 -> days_before_year (y1 + 1) <= days_before_year y2.
Proof. intros H. unfold days_before_year. divmod. Qed.

Lemma day_of_year_bounds d :
  valid d ->
  1 <= preceding1 (is_leap (year d)) (month d) + day d
    <= 365 + b2z (is_leap (year d)).
Proof.
  intros (_ & Hm & Hd). rewrite days_in_month_length in Hd.
  pose proof (preceding1_bounds _ _ _ Hm Hd). lia.
Qed.

Lemma month_offsets_mono leap m1 m2 :
  1 <= m1 -> m1 < m2 -> m2 <= 12 ->
  preceding1 leap m1 + month_length leap m1 <= preceding1 leap m2.
Proof.
  intros H1 H12 H2.
  assert (Hm1 : 1 <= m1 <= 12) by lia. assert (Hm2 : 1 <= m2 <= 12) by lia.
  revert H12. month_cases m1 Hm1; month_cases m2 Hm2; destruct leap;
    intros H12; try lia; eval_closed preceding1; eval_closed month_length; lia.
Qed.

Lemma toordinal_lt_year a b :
  valid a -> valid b -> year a < year b -> toordinal a < toordinal b.
Proof.
  intros Ha Hb Hy. unfold toordinal, ymd2ord.
  rewrite !days_before_month_preceding.
  pose proof (day_of_year_bounds a Ha). pose proof (day_of_year_bounds b Hb).
  pose proof (days_before_year_succ (year a)).
  pose proof (days_before_year_mono _ _ Hy). lia.
Qed.

Lemma toordinal_lt_month a b :
  valid a -> valid b -> year a = year b -> month a < month b ->
  toordinal a < toordinal b.
Proof.
  intros (_ & Hm & Hd) (_ & Hm' & Hd') Hy Hlt. unfold toordinal, ymd2ord.
  rewrite !days_before_month_preceding, Hy.
  rewrite days_in_month_length, Hy in Hd.
  pose proof (month_offsets_mono (is_leap (year b)) (month a) (month b)
                ltac:(lia) Hlt ltac:(lia)). lia.
Qed.

(* ================================================================= *)
(** ** Formatting and parsing dates *)

Lemma digit_val_digit n : 0 <= n <= 9 -> digit_val (digit n) = Some n.
Proof.
  intros H. destruct n as [|p|p]; [reflexivity | | lia].
  do 4 (destruct p as [p|p|]; try reflexivity; try lia).
Qed.

Lemma parse_Y_pad4 y rest :
  0 <= y <= 9999 -> parse_Y (pad4 y rest) = Some (y, rest).
Proof.
  intros Hy. unfold pad4, pad2, parse_Y.
  rewrite !digit_val_digit by divmod.
  do 2 f_equal. divmod.
Qed.

Lemma two_digits_pad2 ok n rest :
  0 <= n <= 99 -> ok (n / 10 mod 10) (n mod 10) = true ->
  two_digits ok (pad2 n rest) = Some (n, rest).
Proof.
  intros Hn Hok. unfold pad2, two_digits.
  rewrite !digit_val_digit by divmod. rewrite Hok.
  do 2 f_equal. divmod.
Qed.

Lemma parse_m_pad2 m rest :
  1 <= m <= 12 -> parse_m (pad2 m rest) = Some (m, rest).
Proof.
  intros Hm. unfold parse_m. rewrite two_digits_pad2; [reflexivity | lia |].
  month_cases m Hm; reflexivity.
Qed.

Lemma parse_d_pad2 d rest :
  1 <= d <= 31 -> parse_d (pad2 d rest) = Some (d, rest).
Proof.
  intros Hd. unfold parse_d. rewrite two_digits_pad2; [reflexivity | lia |].
  assert (Hq : d / 10 mod 10 = d / 10) by divmod. rewrite Hq.
  assert (E : d / 10 = 0 \/ d / 10 = 1 \/ d / 10 = 2 \/ d / 10 = 3) by divmod.
  destruct E as [E | [E | [E | E]]]; rewrite E; cbn; rewrite ?orb_false_r;
    try reflexivity; apply Z.leb_le; divmod.
Qed.

Lemma days_in_month_le y m : days_in_month y m <= 31.
Proof.
  unfold days_in_month. destruct ((m =? 2) && is_leap y); [lia|].
  destruct m as [|p|p]; cbn; try lia.
  do 4 (destruct p; cbn; try lia).
Qed.

Lemma year_digits_pad4 y rest :
  1000 <= y -> year_digits y rest = pad4 y rest.
Proof.
  intros H. unfold year_digits.
  destruct (Z.ltb_spec y 10); [lia|].
  destruct (Z.ltb_spec y 100); [lia|].
  destruct (Z.ltb_spec y 1000); [lia | reflexivity].
Qed.

(** A formatted date of year 1000 or later parses back to the date, in
    the response format used by [consecutive_nights] ... *)
Lemma strptime_format_response d :
  valid d -> 1000 <= year d ->
  strptime (format_date d ISO_DATE_FORMAT_RESPONSE) ISO_DATE_FORMAT_RESPONSE
  = Some d.
Proof.
  intros Hv Hy'. pose proof Hv as (Hy & Hm & Hd).
  unfold MINYEAR, MAXYEAR in Hy.
  pose proof (days_in_month_le (year d) (month d)).
  unfold strptime, format_date, ISO_DATE_FORMAT_RESPONSE.
  cbn [strftime strptime_from Ascii.eqb Bool.eqb].
  rewrite year_digits_pad4 by assumption.
  rewrite parse_Y_pad4 by lia.
  change (same_letter "-" "-") with true. cbv iota.
  rewrite parse_m_pad2 by lia.
  change (same_letter "-" "-") with true. cbv iota.
  rewrite parse_d_pad2 by lia.
  cbn. destruct d as [y m dd]. cbn [year month day] in *.
  apply validb_valid in Hv. rewrite Hv. reflexivity.
Qed.

(** ... and in the input format of the command line. *)
Lemma valid_date_format_input d :
  valid d -> 1000 <= year d ->
  valid_date (format_date d INPUT_DATE_FORMAT) = Some d.
Proof.
  intros Hv Hy'. pose proof Hv as (Hy & Hm & Hd).
  unfold MINYEAR, MAXYEAR in Hy.
  pose proof (days_in_month_le (year d) (month d)).
  unfold valid_date, strptime, format_date, INPUT_DATE_FORMAT.
  cbn [strftime strptime_from Ascii.eqb Bool.eqb].
  rewrite year_digits_pad4 by assumption.
  rewrite parse_Y_pad4 by lia.
  change (same_letter "-" "-") with true. cbv iota.
  rewrite parse_m_pad2 by lia.
  change (same_letter "-" "-") with true. cbv iota.
  rewrite parse_d_pad2 by lia.
  destruct d as [y m dd]. cbn [year month day] in *.
  apply validb_valid in Hv. rewrite Hv. reflexivity.
Qed.

Lemma strptime_valid s fmt d : strptime s fmt = Some d -> valid d.
Proof.
  unfold strptime. destruct (strptime_from fmt s _) as [dt|]; [|discriminate].
  destruct (validb dt) eqn:E; [|discriminate].
  intros [= <-]. now apply validb_valid.
Qed.

Lemma digit_val_dash : digit_val "-" = None.
Proof. reflexivity. Qed.

(** Before year 1000 the year has fewer than four digits and [%Y], which
    wants four, does not read it. *)
Lemma parse_Y_early y m rest :
  0 <= y < 1000 ->
  parse_Y (year_digits y (String "-" (pad2 m rest))) = None.
Proof.
  intros Hy. unfold year_digits.
  destruct (Z.ltb_spec y 10).
  - unfold pad2, parse_Y. now rewrite digit_val_dash, digit_val_digit by lia.
  - destruct (Z.ltb_spec y 100).
    + unfold pad2, parse_Y.
      now rewrite digit_val_dash, !digit_val_digit by divmod.
    + destruct (Z.ltb_spec y 1000); [|lia].
      unfold pad2, parse_Y.
      now rewrite digit_val_dash, !digit_val_digit by divmod.
Qed.

Lemma strptime_format_response_early d :
  valid d -> year d < 1000 ->
  strptime (format_date d ISO_DATE_FORMAT_RESPONSE) ISO_DATE_FORMAT_RESPONSE
  = None.
Proof.
  intros (Hy & _) Hy'. unfold MINYEAR in Hy.
  unfold strptime, format_date, ISO_DATE_FORMAT_RESPONSE.
  cbn [strftime strptime_from Ascii.eqb Bool.eqb].
  now rewrite parse_Y_early by lia.
Qed.

Lemma valid_date_format_input_early d :
  valid d -> year d < 1000 ->
  valid_date (format_date d INPUT_DATE_FORMAT) = None.
Proof.
  intros (Hy & _) Hy'. unfold MINYEAR in Hy.
  unfold valid_date, strptime, format_date, INPUT_DATE_FORMAT.
  cbn [strftime strptime_from Ascii.eqb Bool.eqb].
  now rewrite parse_Y_early by lia.
Qed.

(** What [strptime] reads from a formatted date, when it reads it, is
    the date. *)
Lemma strptime_format_response_some d d' :
  valid d ->
  strptime (format_date d ISO_DATE_FORMAT_RESPONSE) ISO_DATE_FORMAT_RESPONSE
  = Some d' ->
  d' = d /\ 1000 <= year d.
Proof.
  intros Hv H. destruct (Z_lt_ge_dec (year d) 1000) as [Hlt | Hge].
  - rewrite (strptime_format_response_early d Hv Hlt) in H. discriminate H.
  - rewrite (strptime_format_response d Hv ltac:(lia)) in H.
    injection H as <-. split; [reflexivity | lia].
Qed.

Lemma read_year_digits y rest :
  0 <= y <= 9999 ->
  read_year (year_digits y (String "-" rest)) = Some (y, String "-" rest).
Proof.
  intros Hy. unfold year_digits.
  destruct (Z.ltb_spec y 10).
  - unfold read_year. now rewrite digit_val_dash, digit_val_digit by lia.
  - destruct (Z.ltb_spec y 100).
    + unfold pad2, read_year.
      rewrite digit_val_dash, !digit_val_digit by divmod.
      do 2 f_equal. divmod.
    + destruct (Z.ltb_spec y 1000).
      * unfold pad2, read_year.
        rewrite digit_val_dash, !digit_val_digit by divmod.
        do 2 f_equal. divmod.
      * unfold pad4, pad2, read_year.
        rewrite !digit_val_digit by divmod.
        do 2 f_equal. divmod.
Qed.

Lemma read_date_format_response d :
  valid d ->
  read_date "-%m-%dT00:00:00Z" (format_date d ISO_DATE_FORMAT_RESPONSE) = Some d.
Proof.
  intros (Hy & Hm & Hd). unfold MINYEAR, MAXYEAR in Hy.
  pose proof (days_in_month_le (year d) (month d)).
  unfold read_date, format_date, ISO_DATE_FORMAT_RESPONSE.
  cbn [strftime Ascii.eqb Bool.eqb].
  rewrite read_year_digits by lia.
  cbn [strptime_from Ascii.eqb Bool.eqb].
  change (same_letter "-" "-") with true. cbv iota.
  rewrite parse_m_pad2 by lia.
  change (same_letter "-" "-") with true. cbv iota.
  rewrite parse_d_pad2 by lia.
  cbn. destruct d as [y m dd]. reflexivity.
Qed.

Lemma format_response_inj d1 d2 :
  valid d1 -> valid d2 ->
  format_date d1 ISO_DATE_FORMAT_RESPONSE = format_date d2 ISO_DATE_FORMAT_RESPONSE ->
  d1 = d2.
Proof.
  intros H1 H2 E.
  pose proof (read_date_format_response d1 H1) as P1.
  rewrite E, (read_date_format_response d2 H2) in P1. congruence.
Qed.

(** C8. Round trip: the ordinal of a date converts back to the date, for
    every date, so that printing the converted date gives what printing
    the date gives; and for a date of year 1000 or later, the date printed
    in the response format parses to the same date, as the parse and
    [toordinal] step of [consecutive_nights] reads it, and printing it
    again in the input format gives a string that the command line reads
    back as the original date. *)
Theorem date_ordinal_round_trip (d : datetime) :
  valid d ->
  fromordinal (toordinal d) = d /\
  format_date (fromordinal (toordinal d)) INPUT_DATE_FORMAT
    = format_date d INPUT_DATE_FORMAT /\
  (1000 <= year d ->
   strptime (format_date d ISO_DATE_FORMAT_RESPONSE) ISO_DATE_FORMAT_RESPONSE
     = Some d /\
   ordinals_of [format_date d ISO_DATE_FORMAT_RESPONSE] = Some [toordinal d] /\
   valid_date (format_date (fromordinal (toordinal d)) INPUT_DATE_FORMAT)
     = Some d).
Proof.
  intros Hv.
  pose proof (fromordinal_toordinal d Hv) as R.
  split; [exact R|]. split; [now rewrite R|].
  intros Hy.
  pose proof (strptime_format_response d Hv Hy) as P.
  split; [exact P|]. split.
  - cbn [ordinals_of]. now rewrite P.
  - rewrite R. now apply valid_date_format_input.
Qed.

Lemma date_ordinal_round_trip_witness :
  let d := mkdate 2024 2 29 in
  valid d /\ 1000 <= year d /\
  fromordinal (toordinal d) = d /\
  strptime (format_date d ISO_DATE_FORMAT_RESPONSE) ISO_DATE_FORMAT_RESPONSE
    = Some d /\
  valid_date (format_date (fromordinal (toordinal d)) INPUT_DATE_FORMAT)
    = Some d.
Proof.
  assert (Hv : valid (mkdate 2024 2 29)) by (cbv; intuition discriminate).
  assert (Hy : 1000 <= year (mkdate 2024 2 29)) by (cbn; lia).
  destruct (date_ordinal_round_trip (mkdate 2024 2 29) Hv) as (R & _ & H).
  destruct (H Hy) as (P & _ & V).
  exact (conj Hv (conj Hy (conj R (conj P V)))).
Defined.

(** A date before year 1000 is printed with a year of fewer than four
    digits, which is not parsed back: the 7th of June 999, that the
    command line reads from "0999-06-07", is printed as "999-06-07". *)
Lemma round_trip_fails_before_1000 :
  let d := mkdate 999 6 7 in
  valid d /\
  valid_date "0999-06-07" = Some d /\
  strptime "0999-06-07T00:00:00Z" ISO_DATE_FORMAT_RESPONSE = Some d /\
  format_date d ISO_DATE_FORMAT_RESPONSE = "999-06-07T00:00:00Z" /\
  strptime (format_date d ISO_DATE_FORMAT_RESPONSE) ISO_DATE_FORMAT_RESPONSE
    = None /\
  ordinals_of [format_date d ISO_DATE_FORMAT_RESPONSE] = None /\
  format_date (fromordinal (toordinal d)) INPUT_DATE_FORMAT = "999-06-07" /\
  valid_date (format_date (fromordinal (toordinal d)) INPUT_DATE_FORMAT)
    = None.
Proof.
  split; [cbv; intuition discriminate|].
  repeat split; vm_compute; reflexivity.
Qed.

(* ================================================================= *)
(** ** The day set of the analyzer *)

Lemma range_In lo hi i : In i (range lo hi) <-> lo <= i < hi.
Proof.
  unfold range. rewrite in_map_iff. split.
  - intros (k & <- & Hk). apply in_seq in Hk. lia.
  - intros H. exists (Z.to_nat (i - lo)). split; [lia|].
    apply in_seq. lia.
Qed.

Lemma mem_In s l : mem s l = true <-> In s l.
Proof.
  unfold mem. rewrite existsb_exists. split.
  - intros (x & Hx & E). apply String.eqb_eq in E. now subst.
  - intros H. exists s. split; [assumption | apply String.eqb_refl].
Qed.

Lemma sub_days_spec dt i :
  1 <= toordinal dt - i <= MAXORDINAL ->
  valid (sub_days dt i) /\ toordinal (sub_days dt i) = toordinal dt - i.
Proof. intros H. exact (toordinal_fromordinal _ H). Qed.

(** The strings of [dates] are the formatted days from the start day up
    to the day before the end day that fall on Friday to Sunday. *)
Lemma desired_dates_spec start_date end_date s :
  valid start_date -> valid end_date ->
  In s (desired_dates start_date end_date) <->
  exists d, valid d /\ s = format_date d ISO_DATE_FORMAT_RESPONSE /\
    toordinal start_date <= toordinal d < toordinal end_date /\
    4 <= weekday d <= 6.
Proof.
  intros Hs He.
  pose proof (toordinal_range _ Hs) as Rs.
  pose proof (toordinal_range _ He) as Re.
  unfold desired_dates, days_between. rewrite in_map_iff. split.
  - intros (d & <- & Hd). apply filter_In in Hd as [Hd Hw].
    apply in_map_iff in Hd as (i & <- & Hi). apply range_In in Hi.
    destruct (sub_days_spec end_date i) as [V T]; [lia|].
    exists (sub_days end_date i).
    apply andb_prop in Hw as [W1 W2].
    apply Z.ltb_lt in W1. apply Z.leb_le in W2.
    split; [exact V|]. split; [reflexivity|]. split; lia.
  - intros (d & Hv & -> & Hr & Hw).
    exists d. split; [reflexivity|]. apply filter_In. split.
    + apply in_map_iff. exists (toordinal end_date - toordinal d). split.
      * unfold sub_days.
        replace (toordinal end_date - (toordinal end_date - toordinal d))
          with (toordinal d) by lia.
        now apply fromordinal_toordinal.
      * apply range_In. lia.
    + apply andb_true_intro. split; [apply Z.ltb_lt | apply Z.leb_le]; lia.
Qed.

(** C1. The candidate days are the calendar days from the
    start day included to the end day excluded whose weekday index
    (Monday = 0) is 4, 5 or 6: a date is in the set used for the
    intersection if and only if it satisfies both conditions, and the set
    holds nothing but such dates. *)
Theorem candidate_days (start_date end_date : datetime) :
  valid start_date -> valid end_date ->
  (forall d, valid d ->
     In (format_date d ISO_DATE_FORMAT_RESPONSE)
        (desired_dates start_date end_date) <->
     toordinal start_date <= toordinal d < toordinal end_date /\
     4 <= weekday d <= 6) /\
  (forall s, In s (desired_dates start_date end_date) ->
     exists d, valid d /\ s = format_date d ISO_DATE_FORMAT_RESPONSE).
Proof.
  intros Hs He. split.
  - intros d Hv. rewrite (desired_dates_spec _ _ _ Hs He). split.
    + intros (d' & Hv' & E & Hr & Hw).
      apply format_response_inj in E; [subst d'|assumption|assumption].
      now split.
    + intros [Hr Hw]. exists d.
      split; [assumption|]. split; [reflexivity|]. split; assumption.
  - intros s H. apply (desired_dates_spec _ _ _ Hs He) in H.
    destruct H as (d & Hv & E & _). now exists d.
Qed.

Lemma candidate_days_witness :
  let s := mkdate 2024 6 1 in
  let e := mkdate 2024 6 10 in
  valid s /\ valid e /\
  In "2024-06-07T00:00:00Z" (desired_dates s e).
Proof.
  assert (Hs : valid (mkdate 2024 6 1)) by (cbv; intuition discriminate).
  assert (He : valid (mkdate 2024 6 10)) by (cbv; intuition discriminate).
  assert (Hd : valid (mkdate 2024 6 7)) by (cbv; intuition discriminate).
  split; [exact Hs | split; [exact He |]].
  apply (proj1 (candidate_days _ _ Hs He) (mkdate 2024 6 7) Hd).
  vm_compute. repeat split; discriminate.
Defined.

(** The start day is in the set and the end day is not: from Friday
    2024-06-07 to Sunday 2024-06-09 the set holds the 7th and the 8th. *)
Lemma day_set_not_as_claimed :
  let s := mkdate 2024 6 7 in
  let e := mkdate 2024 6 9 in
  toordinal s < toordinal e /\
  desired_dates s e = ["2024-06-08T00:00:00Z"; "2024-06-07T00:00:00Z"] /\
  ~ claimed_day_set s e s /\ ~ claimed_day_set s e e.
Proof.
  split; [reflexivity|]. split; [reflexivity|]. split.
  - intros [H _].
    assert (L : toordinal (mkdate 2024 6 7) < toordinal (mkdate 2024 6 7)).
    { apply H. vm_compute. right. left. reflexivity. }
    vm_compute in L. discriminate L.
  - intros [_ H].
    assert (I : In (format_date (mkdate 2024 6 9) ISO_DATE_FORMAT_RESPONSE)
                   (desired_dates (mkdate 2024 6 7) (mkdate 2024 6 9))).
    { apply H. vm_compute. repeat split; discriminate. }
    vm_compute in I. destruct I as [I | [I | []]]; discriminate I.
Qed.

(* ================================================================= *)
(** ** [consecutive_nights]: grouping by [x - next(c)] *)

Lemma groupby_keyed_head c y l :
  exists k g gs, groupby (keyed c (y :: l)) = (k, y :: g) :: gs /\ k = y - c.
Proof.
  cbn [keyed groupby].
  destruct (groupby (keyed (c + 1) l)) as [|[k' g'] gs].
  - now exists (y - c), [], [].
  - destruct (y - c =? k').
    + now exists (y - c), g', gs.
    + now exists (y - c), [], ((k', g') :: gs).
Qed.

(** [groupby] with the key [x - next(c)] cuts the list into its runs. *)
Lemma groupby_keyed_runs l : forall c,
  map snd (groupby (keyed c l)) = runs l.
Proof.
  induction l as [|x l IH]; intros c; [reflexivity|].
  cbn [keyed groupby runs]. rewrite <- (IH (c + 1)).
  destruct l as [|y l'].
  - reflexivity.
  - destruct (groupby_keyed_head (c + 1) y l') as (k & g & gs & E & Hk).
    rewrite E. cbn [map snd].
    replace (x - c =? k) with (y =? x + 1).
    + destruct (y =? x + 1); reflexivity.
    + subst k. destruct (Z.eqb_spec y (x + 1)), (Z.eqb_spec (x - c) (y - (c + 1))); lia.
Qed.

Lemma runs_cons x l :
  exists r rs, runs (x :: l) = (x :: r) :: rs.
Proof.
  cbn [runs]. destruct (runs l) as [|[|y r] rs]; try (now exists [], []).
  destruct (y =? x + 1).
  - now exists (y :: r), rs.
  - now exists [], ((y :: r) :: rs).
Qed.

Lemma runs_concat l : List.concat (runs l) = l.
Proof.
  induction l as [|x l IH]; [reflexivity|].
  cbn [runs]. destruct l as [|y l'].
  - reflexivity.
  - destruct (runs_cons y l') as (r & rs & E). rewrite E in *.
    destruct (y =? x + 1); cbn [List.concat app] in *; now rewrite IH.
Qed.

Lemma runs_consecutive l :
  Forall (fun r => r <> [] /\ consecutive r) (runs l).
Proof.
  induction l as [|x l IH]; [constructor|].
  cbn [runs]. destruct l as [|y l'].
  - constructor; [|constructor]. split; [discriminate | exact I].
  - destruct (runs_cons y l') as (r & rs & E). rewrite E in *.
    inversion IH as [|? ? [_ Hc] Hrs]; subst.
    destruct (Z.eqb_spec y (x + 1)) as [-> | Hne].
    + constructor; [|assumption]. split; [discriminate|].
      cbn [consecutive]. split; [reflexivity | exact Hc].
    + constructor; [|now constructor].
      split; [discriminate | exact I].
Qed.

Lemma runs_separated l : separated (runs l).
Proof.
  induction l as [|x l IH]; [exact I|].
  cbn [runs]. destruct l as [|y l'].
  - exact I.
  - destruct (runs_cons y l') as (r & rs & E). rewrite E in *.
    destruct (Z.eqb_spec y (x + 1)) as [-> | Hne].
    + cbn [separated] in *. destruct rs as [|r2 rs']; [exact I|].
      destruct IH as [H1 H2]. split; [|exact H2].
      replace (last (x :: x + 1 :: r) 0) with (last (x + 1 :: r) 0) by reflexivity.
      exact H1.
    + cbn [separated hd last]. split; [exact Hne | exact IH].
Qed.

Lemma group_loop nights gs : forall ret out,
  fold_left (group_step nights) gs (ret, out) =
  (ret + Z.of_nat (List.length (filter (long_enough nights) (map snd gs))),
   out ++ option_lines nights ret (map snd gs)).
Proof.
  induction gs as [|[k g] gs IH]; intros ret out.
  - cbn. f_equal; [lia | now rewrite app_nil_r].
  - cbn [fold_left group_step map snd filter option_lines].
    unfold long_enough at 1.
    destruct (nights <=? Z.of_nat (List.length g)).
    + rewrite IH. cbn [List.length]. f_equal; [lia|].
      now rewrite <- app_assoc.
    + now rewrite IH.
Qed.

Lemma filter_length_pos {A} (f : A -> bool) l :
  (0 <? Z.of_nat (List.length (filter f l))) = existsb f l.
Proof.
  induction l as [|x l IH]; [reflexivity|].
  cbn [filter existsb]. destruct (f x); cbn [List.length orb].
  - apply Z.ltb_lt. lia.
  - exact IH.
Qed.

Lemma consecutive_nights_runs available nights ords :
  ordinals_of available = Some ords ->
  consecutive_nights available nights =
  Some (existsb (long_enough nights) (runs ords),
        option_lines nights 0 (runs ords)).
Proof.
  intros E. unfold consecutive_nights. rewrite E.
  rewrite group_loop, groupby_keyed_runs. cbn [app Z.add].
  now rewrite filter_length_pos.
Qed.

Lemma option_lines_In nights rs : forall ret k l_d,
  In (Option_line k l_d) (option_lines nights ret rs) ->
  exists r, In r rs /\ long_enough nights r = true /\
    l_d = map (fun dor => format_date (fromordinal dor) INPUT_DATE_FORMAT) r.
Proof.
  induction rs as [|r rs IH]; intros ret k l_d H; [destruct H|].
  cbn [option_lines] in H.
  destruct (nights <=? Z.of_nat (List.length r)) eqn:E.
  - destruct H as [H | H].
    + injection H as _ <-. exists r. repeat split; [now left | exact E].
    + destruct (IH _ _ _ H) as (r' & Hr & Hl & ->).
      exists r'. repeat split; [now right | exact Hl].
  - destruct (IH _ _ _ H) as (r' & Hr & Hl & ->).
    exists r'. repeat split; [now right | exact Hl].
Qed.

Lemma insert_sorted_hd x l : HdRel Z.le x l -> insert_sorted x l = x :: l.
Proof.
  intros H. destruct l as [|y l]; [reflexivity|].
  inversion H; subst. cbn [insert_sorted].
  destruct (Z.leb_spec x y); [reflexivity | lia].
Qed.

Lemma sorted_ascending l : Sorted Z.le l -> sorted l = l.
Proof.
  induction 1 as [|x l Hs IH Hd]; [reflexivity|].
  unfold sorted in *. cbn [fold_right]. rewrite IH.
  now apply insert_sorted_hd.
Qed.

Lemma ordinals_of_cons dstr rest :
  ordinals_of (dstr :: rest) =
  match strptime dstr ISO_DATE_FORMAT_RESPONSE, ordinals_of rest with
  | Some dt, Some os => Some (toordinal dt :: os)
  | _, _ => None
  end.
Proof. reflexivity. Qed.

Lemma ordinals_of_length available : forall ords,
  ordinals_of available = Some ords ->
  List.length ords = List.length available.
Proof.
  induction available as [|s l IH]; intros ords H.
  - injection H as <-. reflexivity.
  - rewrite ordinals_of_cons in H.
    destruct (strptime s ISO_DATE_FORMAT_RESPONSE); [|discriminate].
    destruct (ordinals_of l) as [os|]; [|discriminate].
    injection H as <-. cbn [List.length]. now rewrite (IH os).
Qed.

(** When the intersected dates of a site parse, their ordinals come in
    the order of the strings, lie in the window and fall on a Friday, a
    Saturday or a Sunday. *)
Lemma ordinals_of_desired_facts start_date end_date availabilities :
  valid start_date -> valid end_date ->
  forall ords,
  ordinals_of (filter (fun date => mem date (desired_dates start_date end_date))
                 availabilities) = Some ords ->
  Forall2 (fun s o => s = format_date (fromordinal o) ISO_DATE_FORMAT_RESPONSE)
    (filter (fun date => mem date (desired_dates start_date end_date))
       availabilities) ords /\
  Forall (fun o => toordinal start_date <= o < toordinal end_date /\
                   4 <= (o + 6) mod 7 <= 6) ords.
Proof.
  intros Hs He. induction availabilities as [|s l IH]; intros ords H.
  - injection H as <-. split; constructor.
  - cbn [filter] in *.
    destruct (mem s (desired_dates start_date end_date)) eqn:E; [|now apply IH].
    rewrite ordinals_of_cons in H.
    destruct (strptime s ISO_DATE_FORMAT_RESPONSE) as [dt|] eqn:P;
      [|discriminate].
    destruct (ordinals_of (filter (fun date => mem date (desired_dates start_date end_date)) l))
      as [os|]; [|discriminate].
    injection H as <-. destruct (IH os eq_refl) as [IH1 IH2].
    apply mem_In in E. apply (desired_dates_spec _ _ _ Hs He) in E.
    destruct E as (d & Hv & -> & Hr & Hw).
    destruct (strptime_format_response_some d dt Hv P) as [-> _].
    split; constructor; try assumption.
    + now rewrite fromordinal_toordinal.
    + split; [exact Hr | exact Hw].
Qed.

Lemma window_year a b :
  valid a -> valid b -> toordinal a <= toordinal b -> year a <= year b.
Proof.
  intros Ha Hb H. destruct (Z_le_gt_dec (year a) (year b)) as [|Hgt];
    [assumption|].
  pose proof (toordinal_lt_year b a Hb Ha ltac:(lia)). lia.
Qed.

(** In a window that starts in year 1000 or later every string that
    survives the intersection with the day set parses, so
    [consecutive_nights] does not raise inside the analyzer. *)
Lemma ordinals_of_desired start_date end_date availabilities :
  valid start_date -> valid end_date -> 1000 <= year start_date ->
  exists ords,
    ordinals_of (filter (fun date => mem date (desired_dates start_date end_date))
                   availabilities) = Some ords.
Proof.
  intros Hs He Hy. induction availabilities as [|s l IH].
  - now exists [].
  - cbn [filter].
    destruct (mem s (desired_dates start_date end_date)) eqn:E; [|exact IH].
    destruct IH as (ords & Ho).
    apply mem_In in E. apply (desired_dates_spec _ _ _ Hs He) in E.
    destruct E as (d & Hv & -> & Hr & _).
    pose proof (window_year _ _ Hs Hv ltac:(lia)).
    exists (toordinal d :: ords). rewrite ordinals_of_cons.
    now rewrite (strptime_format_response d Hv ltac:(lia)), Ho.
Qed.

(** The loop body on a site whose intersected dates parse, and on a site
    where one of them does not. *)
Lemma site_step_ords dates nights site availabilities n out ords :
  ordinals_of (filter (fun date => mem date dates) availabilities) = Some ords ->
  site_step dates nights (Some (n, out)) (site, availabilities) =
    Some (if site_counted dates nights availabilities then n + 1 else n,
          out ++
          match filter (fun date => mem date dates) availabilities with
          | [] => []
          | _ :: _ =>
              option_lines nights 0 (runs ords) ++
              (if site_counted dates nights availabilities
               then [Available_site_line (n + 1) site] else [])
          end) /\
  site_counted dates nights availabilities =
    match filter (fun date => mem date dates) availabilities with
    | [] => false
    | _ :: _ => existsb (long_enough nights) (runs ords)
    end.
Proof.
  intros Ho. unfold site_step, site_counted.
  destruct (filter (fun date => mem date dates) availabilities) as [|s l] eqn:F.
  - split; [|reflexivity]. now rewrite app_nil_r.
  - rewrite (consecutive_nights_runs _ nights _ Ho).
    destruct (existsb (long_enough nights) (runs ords)); split; try reflexivity.
    now rewrite app_nil_r.
Qed.

Lemma site_step_raises dates nights site availabilities st :
  ordinals_of (filter (fun date => mem date dates) availabilities) = None ->
  site_step dates nights (Some st) (site, availabilities) = None /\
  site_counted dates nights availabilities = false.
Proof.
  intros Ho. unfold site_step, site_counted, consecutive_nights.
  destruct st as [n out].
  destruct (filter (fun date => mem date dates) availabilities) as [|s l] eqn:F.
  - discriminate Ho.
  - rewrite Ho. split; reflexivity.
Qed.

Lemma site_counted_runs dates nights availabilities :
  site_counted dates nights availabilities = true <->
  exists ords,
    ordinals_of (filter (fun date => mem date dates) availabilities) = Some ords /\
    filter (fun date => mem date dates) availabilities <> [] /\
    existsb (long_enough nights) (runs ords) = true.
Proof.
  destruct (ordinals_of (filter (fun date => mem date dates) availabilities))
    as [ords|] eqn:Ho.
  - destruct (site_step_ords dates nights "" availabilities 0 [] ords Ho)
      as [_ ->].
    destruct (filter (fun date => mem date dates) availabilities) as [|s l].
    + split; [discriminate|]. intros (o & _ & H & _). now destruct H.
    + split.
      * intros H. exists ords. split; [reflexivity|]. split; [discriminate|].
        exact H.
      * intros (o & [= <-] & _ & H). exact H.
  - destruct (site_step_raises dates nights "" availabilities (0, []) Ho)
      as [_ ->].
    split; [discriminate|]. intros (o & H & _). discriminate H.
Qed.

(** *** Runs inside a finite set of ordinals *)

Lemma bounded_below (S : list Z) : exists B, forall x, In x S -> B <= x.
Proof.
  induction S as [|y S [B HB]].
  - exists 0. intros x [].
  - exists (Z.min y B). intros x [<- | H]; [lia|]. specialize (HB x H). lia.
Qed.

Lemma bounded_above (S : list Z) : exists B, forall x, In x S -> x <= B.
Proof.
  induction S as [|y S [B HB]].
  - exists 0. intros x [].
  - exists (Z.max y B). intros x [<- | H]; [lia|]. specialize (HB x H). lia.
Qed.

Lemma extend_left S B (HB : forall x, In x S -> B <= x) (m : nat) :
  forall a n, is_run S a n -> a - B <= Z.of_nat m ->
  exists a', a' <= a /\ is_run S a' (n + (a - a')) /\ ~ In (a' - 1) S.
Proof.
  induction m as [|m IH]; intros a n [Hn Hrun] Hm.
  - exists a. split; [lia|]. split.
    + split; [lia|]. intros k Hk. apply Hrun. lia.
    + intros H. specialize (HB _ H). lia.
  - destruct (in_dec Z.eq_dec (a - 1) S) as [Hin | Hout].
    + destruct (IH (a - 1) (n + 1)) as (a' & Ha' & Hr & Hno).
      * split; [lia|]. intros k Hk.
        destruct (Z.eq_dec k 0) as [-> | Hk0].
        -- now rewrite Z.add_0_r.
        -- replace (a - 1 + k) with (a + (k - 1)) by lia. apply Hrun. lia.
      * lia.
      * exists a'. split; [lia|]. split; [|exact Hno].
        replace (n + (a - a')) with (n + 1 + (a - 1 - a')) by lia. exact Hr.
    + exists a. split; [lia|]. split; [|exact Hout].
      split; [lia|]. intros k Hk. apply Hrun. lia.
Qed.

Lemma extend_right S B (HB : forall x, In x S -> x <= B) (m : nat) :
  forall a n, is_run S a n -> B - (a + n - 1) <= Z.of_nat m ->
  exists n', n <= n' /\ is_run S a n' /\ ~ In (a + n') S.
Proof.
  induction m as [|m IH]; intros a n [Hn Hrun] Hm.
  - exists n. split; [lia|]. split; [now split|].
    intros H. specialize (HB _ H). lia.
  - destruct (in_dec Z.eq_dec (a + n) S) as [Hin | Hout].
    + destruct (IH a (n + 1)) as (n' & Hn' & Hr & Hno).
      * split; [lia|]. intros k Hk.
        destruct (Z.eq_dec k n) as [-> | Hkn]; [exact Hin | apply Hrun; lia].
      * lia.
      * exists n'. split; [lia|]. now split.
    + exists n. split; [lia|]. split; [now split | exact Hout].
Qed.

(** A run inside a finite set lies in a maximal one, which is at least
    as long. *)
Lemma run_in_maximal_run S a n :
  is_run S a n -> exists a' n', is_maximal_run S a' n' /\ n <= n'.
Proof.
  intros Hr.
  destruct (bounded_below S) as [Bl Hl]. destruct (bounded_above S) as [Bu Hu].
  destruct (extend_left S Bl Hl (Z.to_nat (a - Bl)) a n Hr ltac:(lia))
    as (a' & Ha' & Hr' & Hno).
  destruct (extend_right S Bu Hu (Z.to_nat (Bu - (a' + (n + (a - a')) - 1)))
              a' _ Hr' ltac:(lia)) as (n' & Hn' & Hr'' & Hno').
  exists a', n'. split; [|lia].
  split; [exact Hr''|]. split; assumption.
Qed.

Lemma consecutive_nth r : consecutive r ->
  forall k, (k < List.length r)%nat -> nth k r 0 = hd 0 r + Z.of_nat k.
Proof.
  induction r as [|x r IH]; intros Hc k Hk; [cbn in Hk; lia|].
  destruct k as [|k]; [cbn; lia|].
  cbn [nth]. destruct r as [|y r']; [cbn in Hk; lia|].
  cbn [consecutive] in Hc. destruct Hc as [-> Hc].
  rewrite (IH Hc k) by (cbn in Hk |- *; lia). cbn [hd]. lia.
Qed.

(** A run of the partition is a run of consecutive days of the set. *)
Lemma runs_is_run ords r :
  In r (runs ords) -> is_run ords (hd 0 r) (Z.of_nat (List.length r)).
Proof.
  intros Hin.
  pose proof (runs_consecutive ords) as Hc.
  rewrite Forall_forall in Hc. destruct (Hc r Hin) as [Hne Hcons].
  split.
  - destruct r; [contradiction | cbn [List.length]; lia].
  - intros k Hk.
    rewrite <- (Z2Nat.id k) by lia.
    rewrite <- (consecutive_nth r Hcons) by lia.
    rewrite <- (runs_concat ords). apply in_concat.
    exists r. split; [exact Hin|]. apply nth_In. lia.
Qed.

(* ================================================================= *)
(** ** The analyzer: which sites are counted *)

Lemma site_lines_app out1 out2 :
  site_lines (out1 ++ out2) = site_lines out1 ++ site_lines out2.
Proof. apply flat_map_app. Qed.

Lemma site_lines_option_lines nights rs : forall ret,
  site_lines (option_lines nights ret rs) = [].
Proof.
  induction rs as [|r rs IH]; intros ret; [reflexivity|].
  cbn [option_lines]. destruct (nights <=? Z.of_nat (List.length r)).
  - cbn [site_lines flat_map app]. apply IH.
  - apply IH.
Qed.

Lemma site_lines_In k site out :
  In (Available_site_line k site) out <-> In (k, site) (site_lines out).
Proof.
  unfold site_lines. rewrite in_flat_map. split.
  - intros H. exists (Available_site_line k site). split; [exact H | now left].
  - intros (l & Hl & Hin). destruct l as [k' l_d | k' site'].
    + destruct Hin.
    + destruct Hin as [[= <- <-] | []]. exact Hl.
Qed.

Lemma numbered_In l : forall n k site,
  In (k, site) (numbered n l) -> In site l.
Proof.
  induction l as [|x l IH]; intros n k site H; [destruct H|].
  cbn [numbered] in H. destruct H as [[= _ <-] | H]; [now left|].
  right. exact (IH _ _ _ H).
Qed.

(** Once a site has raised, the loop is over. *)
Lemma site_loop_raised dates nights park_information :
  fold_left (site_step dates nights) park_information None = None.
Proof.
  induction park_information as [|item rest IH]; [reflexivity | exact IH].
Qed.

(** The loop over the sites when the intersected dates of every site
    parse: it adds the number of counted sites and prints one "Available
    site" line per counted site, in the order of the map, numbered from
    the count it started with. *)
Lemma site_loop_returns dates nights :
  forall (park_information : dict (list string)) n out,
  forallb (fun item => site_parses dates (snd item)) park_information = true ->
  exists out',
    fold_left (site_step dates nights) park_information (Some (n, out)) =
    Some (n + Z.of_nat (List.length
                (filter (fun item => site_counted dates nights (snd item))
                        park_information)),
          out ++ out') /\
    site_lines out' =
      numbered n (map fst (filter (fun item => site_counted dates nights (snd item))
                             park_information)).
Proof.
  induction park_information as [|[site av] rest IH]; intros n out Hp.
  - exists []. cbn. rewrite app_nil_r, Z.add_0_r. split; reflexivity.
  - cbn [forallb snd] in Hp. apply andb_true_iff in Hp as [Hp Hrest].
    unfold site_parses in Hp.
    destruct (ordinals_of (filter (fun date => mem date dates) av))
      as [ords|] eqn:Ho; [clear Hp | discriminate Hp].
    cbn [fold_left filter snd].
    destruct (site_step_ords dates nights site av n out ords Ho) as [-> Hc].
    destruct (IH (if site_counted dates nights av then n + 1 else n)
                 (out ++
                  match filter (fun date => mem date dates) av with
                  | [] => []
                  | _ :: _ =>
                      option_lines nights 0 (runs ords) ++
                      (if site_counted dates nights av
                       then [Available_site_line (n + 1) site] else [])
                  end) Hrest)
      as (out' & -> & Hout).
    eexists. split.
    + rewrite <- app_assoc. f_equal. f_equal.
      destruct (site_counted dates nights av); cbn [List.length]; lia.
    + rewrite site_lines_app, Hout.
      destruct (filter (fun date => mem date dates) av) as [|d l].
      * rewrite Hc. reflexivity.
      * rewrite site_lines_app, site_lines_option_lines.
        destruct (site_counted dates nights av); reflexivity.
Qed.

(** The loop raises as soon as the intersected dates of one site do not
    parse. *)
Lemma site_loop_raises dates nights :
  forall (park_information : dict (list string)) st,
  forallb (fun item => site_parses dates (snd item)) park_information = false ->
  fold_left (site_step dates nights) park_information st = None.
Proof.
  induction park_information as [|[site av] rest IH]; intros st Hp;
    [discriminate Hp|].
  destruct st as [st|]; [|apply site_loop_raised].
  cbn [forallb snd] in Hp. cbn [fold_left].
  unfold site_parses in Hp at 1.
  destruct (ordinals_of (filter (fun date => mem date dates) av))
    as [ords|] eqn:Ho.
  - apply IH. exact Hp.
  - destruct (site_step_raises dates nights site av st Ho) as [-> _].
    apply site_loop_raised.
Qed.

(** What a call of the analyzer that returns has returned. *)
Lemma get_num_available_sites_some park_information start_date end_date nights
    num_available maximum out :
  get_num_available_sites park_information start_date end_date nights =
    Some ((num_available, maximum), out) ->
  forallb (fun item => site_parses (desired_dates start_date end_date) (snd item))
    park_information = true /\
  num_available =
    Z.of_nat (List.length
      (filter (fun item => site_counted (desired_dates start_date end_date)
                 (effective_nights nights (days_between end_date start_date))
                 (snd item))
              park_information)) /\
  maximum = Z.of_nat (List.length park_information) /\
  site_lines out =
    numbered 0
      (map fst
         (filter (fun item => site_counted (desired_dates start_date end_date)
                    (effective_nights nights (days_between end_date start_date))
                    (snd item))
                 park_information)).
Proof.
  unfold get_num_available_sites. intros H.
  destruct (forallb (fun item => site_parses (desired_dates start_date end_date) (snd item))
              park_information) eqn:Hp.
  - destruct (site_loop_returns (desired_dates start_date end_date)
                (effective_nights nights (days_between end_date start_date))
                park_information 0 [] Hp) as (out' & E & Hout).
    rewrite E in H. injection H as <- <- <-.
    split; [reflexivity|]. split; [lia|]. split; [reflexivity | exact Hout].
  - rewrite (site_loop_raises _ _ _ _ Hp) in H. discriminate H.
Qed.

(** A call of the analyzer raises exactly when the intersected dates of
    some site do not parse. *)
Lemma get_num_available_sites_raises park_information start_date end_date nights :
  get_num_available_sites park_information start_date end_date nights = None <->
  forallb (fun item => site_parses (desired_dates start_date end_date) (snd item))
    park_information = false.
Proof.
  unfold get_num_available_sites.
  destruct (forallb (fun item => site_parses (desired_dates start_date end_date) (snd item))
              park_information) eqn:Hp.
  - destruct (site_loop_returns (desired_dates start_date end_date)
                (effective_nights nights (days_between end_date start_date))
                park_information 0 [] Hp) as (out' & -> & _).
    split; discriminate.
  - rewrite (site_loop_raises _ _ _ _ Hp). split; reflexivity.
Qed.

(** The sites the analyzer reports are sites of the map that its loop
    counted. *)
Lemma reported_sites_counted dates nights park_information k site :
  In (k, site)
    (numbered 0 (map fst (filter (fun item => site_counted dates nights (snd item))
                            park_information))) ->
  exists availabilities,
    In (site, availabilities) park_information /\
    site_counted dates nights availabilities = true.
Proof.
  intros H. apply numbered_In in H. apply in_map_iff in H as ([s av] & E & Hin).
  cbn [fst] in E. subst s. apply filter_In in Hin as [Hin C].
  exists av. split; [exact Hin | exact C].
Qed.

(** In a window that starts in year 1000 or later the dates of every
    site parse. *)
Lemma window_parses (park_information : dict (list string)) start_date end_date :
  valid start_date -> valid end_date -> 1000 <= year start_date ->
  forallb (fun item => site_parses (desired_dates start_date end_date) (snd item))
    park_information = true.
Proof.
  intros Hs He Hy. apply forallb_forall. intros [site av] _. cbn [snd].
  unfold site_parses.
  destruct (ordinals_of_desired _ _ av Hs He Hy) as (ords & ->). reflexivity.
Qed.

(** The analyzer returns on every window that starts in year 1000 or
    later. *)
Lemma get_num_available_sites_returns park_information start_date end_date nights :
  valid start_date -> valid end_date -> 1000 <= year start_date ->
  exists out,
    get_num_available_sites park_information start_date end_date nights =
    Some ((Z.of_nat (List.length
             (filter (fun item => site_counted
                        (desired_dates start_date end_date)
                        (effective_nights nights (days_between end_date start_date))
                        (snd item))
                     park_information)),
           Z.of_nat (List.length park_information)), out) /\
    site_lines out =
      numbered 0
        (map fst
           (filter (fun item => site_counted (desired_dates start_date end_date)
                      (effective_nights nights (days_between end_date start_date))
                      (snd item))
                   park_information)).
Proof.
  intros Hs He Hy. unfold get_num_available_sites.
  destruct (site_loop_returns (desired_dates start_date end_date)
              (effective_nights nights (days_between end_date start_date))
              park_information 0 [] (window_parses park_information _ _ Hs He Hy))
    as (out' & -> & Hout).
  exists out'. split; [reflexivity | exact Hout].
Qed.

(** C2. [consecutive_nights] groups the ordinals in the order the dates
    are listed in and never sorts them, so its answer depends on that
    order: for the Friday 2024-06-07 and the Saturday 2024-06-08, two
    consecutive nights of the set of available dates, it answers [True]
    when they are listed in ascending order and [False] when they are
    listed latest first, and the analyzer counts the site in the first
    case only.  Its docstring, "Returns whether there are `nights` worth
    of consecutive nights", and the sorted partition of the specification
    both give [True] for either order. *)
Theorem qualification_depends_on_order :
  let s := mkdate 2024 6 1 in
  let e := mkdate 2024 6 10 in
  let up := ["2024-06-07T00:00:00Z"; "2024-06-08T00:00:00Z"] in
  let down := ["2024-06-08T00:00:00Z"; "2024-06-07T00:00:00Z"] in
  Permutation up down /\
  consecutive_nights up 2 =
    Some (true, [Option_line 1 ["2024-06-07"; "2024-06-08"]]) /\
  consecutive_nights down 2 = Some (false, []) /\
  get_num_available_sites [("A", up)] s e (Some 2) =
    Some ((1, 1), [Option_line 1 ["2024-06-07"; "2024-06-08"];
                   Available_site_line 1 "A"]) /\
  get_num_available_sites [("A", down)] s e (Some 2) = Some ((0, 1), []) /\
  ordinals_of down = Some [739045; 739044] /\
  is_run [739045; 739044] 739044 2 /\
  spec_qualifies [739045; 739044] 2 = true.
Proof.
  split; [apply perm_swap|].
  split; [vm_compute; reflexivity|].
  split; [vm_compute; reflexivity|].
  split; [vm_compute; reflexivity|].
  split; [vm_compute; reflexivity|].
  split; [vm_compute; reflexivity|].
  split; [|vm_compute; reflexivity].
  split; [lia|]. intros k Hk.
  assert (k = 0 \/ k = 1) as [-> | ->] by lia.
  - right. left. reflexivity.
  - left. reflexivity.
Qed.

Lemma existsb_long_enough nights rs :
  existsb (long_enough nights) rs = true ->
  exists r, In r rs /\ nights <= Z.of_nat (List.length r).
Proof.
  intros H. apply existsb_exists in H as (r & Hr & Hl).
  exists r. split; [exact Hr|]. now apply Z.leb_le in Hl.
Qed.

(** C3. Soundness of qualification.  Whatever the map, the window and
    the nights value: when the analyzer returns, its count is the number
    of sites its loop counted and every site it reports is a counted site
    of the map; a counted site has, among the ordinals of its filtered
    availability, a run of consecutive days that cannot be extended and
    is at least as long as the effective nights value; and a site all of
    whose maximal runs are shorter than that is not counted.  The
    analyzer does return on every window that starts in year 1000 or
    later. *)
Theorem qualification_sound (park_information : dict (list string))
    (start_date end_date : datetime) (nights : option Z) :
  let dates := desired_dates start_date end_date in
  let nights' := effective_nights nights (days_between end_date start_date) in
  (forall num_available maximum out,
     get_num_available_sites park_information start_date end_date nights =
       Some ((num_available, maximum), out) ->
     num_available =
       Z.of_nat (List.length
         (filter (fun item => site_counted dates nights' (snd item))
                 park_information)) /\
     forall k site, In (Available_site_line k site) out ->
       exists availabilities,
         In (site, availabilities) park_information /\
         site_counted dates nights' availabilities = true) /\
  (forall availabilities,
     site_counted dates nights' availabilities = true ->
     exists ords a len,
       ordinals_of (filter (fun date => mem date dates) availabilities)
         = Some ords /\
       is_maximal_run ords a len /\ nights' <= len) /\
  (forall availabilities ords,
     ordinals_of (filter (fun date => mem date dates) availabilities)
       = Some ords ->
     (forall a len, is_maximal_run ords a len -> len < nights') ->
     site_counted dates nights' availabilities = false) /\
  (valid start_date -> valid end_date -> 1000 <= year start_date ->
   exists result,
     get_num_available_sites park_information start_date end_date nights =
       Some result).
Proof.
  intros dates nights'.
  assert (Hsound : forall availabilities,
            site_counted dates nights' availabilities = true ->
            exists ords a len,
              ordinals_of (filter (fun date => mem date dates) availabilities)
                = Some ords /\
              is_maximal_run ords a len /\ nights' <= len).
  { intros av C.
    apply site_counted_runs in C as (ords & Ho & _ & Hc).
    destruct (existsb_long_enough _ _ Hc) as (r & Hr & Hlen).
    destruct (run_in_maximal_run _ _ _ (runs_is_run _ _ Hr))
      as (a & len & Hmax & Hle).
    exists ords, a, len. split; [exact Ho|]. split; [exact Hmax | lia]. }
  split; [|split; [exact Hsound | split]].
  - intros num_available maximum out Hret.
    apply get_num_available_sites_some in Hret as (_ & Hn & _ & Hout).
    split; [exact Hn|].
    intros k site Hin. apply site_lines_In in Hin. rewrite Hout in Hin.
    exact (reported_sites_counted _ _ _ _ _ Hin).
  - intros av ords Ho Hshort.
    destruct (site_counted dates nights' av) eqn:C; [|reflexivity].
    destruct (Hsound av C) as (ords' & a & len & Ho' & Hmax & Hle).
    assert (ords' = ords) by congruence. subst ords'.
    specialize (Hshort a len Hmax). lia.
  - intros Hs He Hy.
    destruct (get_num_available_sites_returns park_information _ _ nights Hs He Hy)
      as (out & Hret & _).
    eexists. exact Hret.
Qed.

Lemma qualification_sound_witness :
  let s := mkdate 2024 6 1 in
  let e := mkdate 2024 6 10 in
  let av := ["2024-06-07T00:00:00Z"; "2024-06-08T00:00:00Z"; "2024-06-09T00:00:00Z"] in
  get_num_available_sites [("A", av)] s e (Some 2) =
    Some ((1, 1), [Option_line 1 ["2024-06-07"; "2024-06-08"; "2024-06-09"];
                   Available_site_line 1 "A"]) /\
  1 = Z.of_nat (List.length
        (filter (fun item => site_counted (desired_dates s e)
                   (effective_nights (Some 2) (days_between e s)) (snd item))
                [("A", av)])) /\
  exists ords a len,
    ordinals_of (filter (fun date => mem date (desired_dates s e)) av)
      = Some ords /\
    is_maximal_run ords a len /\
    effective_nights (Some 2) (days_between e s) <= len.
Proof.
  assert (Hret : get_num_available_sites
                   [("A", ["2024-06-07T00:00:00Z"; "2024-06-08T00:00:00Z";
                           "2024-06-09T00:00:00Z"])]
                   (mkdate 2024 6 1) (mkdate 2024 6 10) (Some 2) =
                 Some ((1, 1), [Option_line 1 ["2024-06-07"; "2024-06-08"; "2024-06-09"];
                                Available_site_line 1 "A"]))
    by (vm_compute; reflexivity).
  destruct (qualification_sound
              [("A", ["2024-06-07T00:00:00Z"; "2024-06-08T00:00:00Z";
                      "2024-06-09T00:00:00Z"])]
              (mkdate 2024 6 1) (mkdate 2024 6 10) (Some 2))
    as (Hcount & Hsound & _ & _).
  split; [exact Hret|].
  destruct (Hcount _ _ _ Hret) as [Hn Hrep].
  split; [exact Hn|].
  destruct (Hrep 1 "A" (or_intror (or_introl eq_refl))) as (av & Hin & C).
  destruct Hin as [[= <-] | []].
  exact (Hsound _ C).
Defined.

(** The scenarios of the specification: three nights from Friday
    2024-06-07 qualify for two nights with one run of three, and do not
    qualify for four. *)
Example scenario_two_nights :
  get_num_available_sites
    [("A", ["2024-06-07T00:00:00Z"; "2024-06-08T00:00:00Z"; "2024-06-09T00:00:00Z"])]
    (mkdate 2024 6 1) (mkdate 2024 6 10) (Some 2) =
  Some ((1, 1), [Option_line 1 ["2024-06-07"; "2024-06-08"; "2024-06-09"];
                 Available_site_line 1 "A"]).
Proof. vm_compute. reflexivity. Qed.

Example scenario_four_nights :
  get_num_available_sites
    [("A", ["2024-06-07T00:00:00Z"; "2024-06-08T00:00:00Z"; "2024-06-09T00:00:00Z"])]
    (mkdate 2024 6 1) (mkdate 2024 6 10) (Some 4) = Some ((0, 1), []).
Proof. vm_compute. reflexivity. Qed.

(* ================================================================= *)
(** ** The nights value and the shape of the result *)

Lemma effective_nights_num_days num_days :
  effective_nights (Some num_days) num_days = num_days.
Proof.
  unfold effective_nights.
  destruct ((1 <=? num_days) && (num_days <? num_days + 1)); reflexivity.
Qed.

(** C4. Nights defaulting: when the caller's value is absent or is not an
    integer from 1 to the number of days of the range, the analyzer uses
    the number of days from the start date to the end date in its place,
    and the sites are counted against that value: the result is the result
    of the loop run with it, and the one of a call that passes it. *)
Theorem nights_defaulting (park_information : dict (list string))
    (start_date end_date : datetime) (nights : option Z) :
  let num_days := days_between end_date start_date in
  match nights with
  | Some n => ~ (1 <= n <= num_days)
  | None => True
  end ->
  effective_nights nights num_days = num_days /\
  get_num_available_sites park_information start_date end_date nights =
    match fold_left (site_step (desired_dates start_date end_date) num_days)
            park_information (Some (0, [])) with
    | Some (num_available, out) =>
        Some ((num_available, Z.of_nat (List.length park_information)), out)
    | None => None
    end /\
  get_num_available_sites park_information start_date end_date nights =
    get_num_available_sites park_information start_date end_date (Some num_days).
Proof.
  intros num_days H.
  assert (E : effective_nights nights num_days = num_days).
  { unfold effective_nights. destruct nights as [n|]; [|reflexivity].
    destruct (Z.leb_spec 1 n), (Z.ltb_spec n (num_days + 1)); cbn [andb];
      try reflexivity. lia. }
  split; [exact E|].
  unfold get_num_available_sites. fold num_days.
  rewrite effective_nights_num_days, E. split; reflexivity.
Qed.

Lemma nights_defaulting_witness :
  let s := mkdate 2024 6 1 in
  let e := mkdate 2024 6 10 in
  ~ (1 <= 50 <= days_between e s) /\
  effective_nights (Some 50) (days_between e s) = days_between e s /\
  get_num_available_sites [] s e (Some 50) =
    get_num_available_sites [] s e (Some (days_between e s)).
Proof.
  assert (H : ~ (1 <= 50 <= days_between (mkdate 2024 6 10) (mkdate 2024 6 1)))
    by (vm_compute; intros [_ H]; apply H; reflexivity).
  split; [exact H|].
  destruct (nights_defaulting [] (mkdate 2024 6 1) (mkdate 2024 6 10) (Some 50) H)
    as (E & _ & G).
  split; [exact E | exact G].
Defined.

(** A value inside the range is kept. *)
Lemma effective_nights_in_range n num_days :
  1 <= n <= num_days -> effective_nights (Some n) num_days = n.
Proof.
  intros H. unfold effective_nights.
  destruct (Z.leb_spec 1 n), (Z.ltb_spec n (num_days + 1)); cbn [andb];
    try reflexivity; lia.
Qed.

(** The clamped value at work: three days in the range and fifty nights
    asked for give the result of asking for three. *)
Example scenario_clamped :
  get_num_available_sites
    [("A", ["2024-06-07T00:00:00Z"; "2024-06-08T00:00:00Z"; "2024-06-09T00:00:00Z"])]
    (mkdate 2024 6 7) (mkdate 2024 6 10) (Some 50) =
  Some ((1, 1), [Option_line 1 ["2024-06-07"; "2024-06-08"; "2024-06-09"];
                 Available_site_line 1 "A"]).
Proof. vm_compute. reflexivity. Qed.

Lemma filter_length_le {A : Type} (f : A -> bool) (l : list A) :
  (List.length (filter f l) <= List.length l)%nat.
Proof.
  induction l as [|x l IH]; [apply le_n|].
  cbn [filter]. destruct (f x); cbn [List.length]; lia.
Qed.

(** C9. Return shape.  When the analyzer returns, it returns a pair
    whose second component is the number of sites of the input map,
    however many of them qualify, and whose first component is the number
    of sites of the map that are counted, a site being counted exactly
    when its dates of the day set parse, are not empty and hold, in the
    order they are listed in, a run of consecutive days at least as long
    as the effective nights value.  The analyzer returns on every window
    that starts in year 1000 or later, and on the empty map it returns 0
    and 0 for every window. *)
Theorem return_shape (park_information : dict (list string))
    (start_date end_date : datetime) (nights : option Z) :
  let dates := desired_dates start_date end_date in
  let nights' := effective_nights nights (days_between end_date start_date) in
  (forall num_available maximum out,
     get_num_available_sites park_information start_date end_date nights =
       Some ((num_available, maximum), out) ->
     maximum = Z.of_nat (List.length park_information) /\
     num_available =
       Z.of_nat (List.length
         (filter (fun item => site_counted dates nights' (snd item))
                 park_information)) /\
     0 <= num_available <= maximum) /\
  (forall availabilities,
     site_counted dates nights' availabilities = true <->
     exists ords,
       ordinals_of (filter (fun date => mem date dates) availabilities)
         = Some ords /\
       filter (fun date => mem date dates) availabilities <> [] /\
       existsb (long_enough nights') (runs ords) = true) /\
  (valid start_date -> valid end_date -> 1000 <= year start_date ->
   exists num_available out,
     get_num_available_sites park_information start_date end_date nights =
       Some ((num_available, Z.of_nat (List.length park_information)), out)) /\
  get_num_available_sites [] start_date end_date nights = Some ((0, 0), []).
Proof.
  intros dates nights'.
  split; [|split; [|split; [|reflexivity]]].
  - intros num_available maximum out Hret.
    apply get_num_available_sites_some in Hret as (_ & Hn & Hm & _).
    split; [exact Hm|]. split; [exact Hn|].
    subst num_available maximum dates nights'.
    pose proof (filter_length_le
                  (fun item : string * list string =>
                     site_counted (desired_dates start_date end_date)
                       (effective_nights nights (days_between end_date start_date))
                       (snd item)) park_information).
    lia.
  - intros availabilities. apply site_counted_runs.
  - intros Hs He Hy.
    destruct (get_num_available_sites_returns park_information _ _ nights Hs He Hy)
      as (out & Hret & _).
    eexists _, out. exact Hret.
Qed.

Lemma return_shape_witness :
  let s := mkdate 2024 6 1 in
  let e := mkdate 2024 6 10 in
  let pi := [("A", ["2024-06-07T00:00:00Z"; "2024-06-08T00:00:00Z"]);
             ("B", ["2024-06-05T00:00:00Z"]);
             ("C", ["2024-06-02T00:00:00Z"; "2024-06-09T00:00:00Z"])] in
  get_num_available_sites pi s e (Some 2) =
    Some ((1, 3), [Option_line 1 ["2024-06-07"; "2024-06-08"];
                   Available_site_line 1 "A"]) /\
  3 = Z.of_nat (List.length pi) /\
  1 = Z.of_nat (List.length
        (filter (fun item => site_counted (desired_dates s e)
                   (effective_nights (Some 2) (days_between e s)) (snd item))
                pi)) /\
  0 <= 1 <= 3.
Proof.
  assert (Hret : get_num_available_sites
                   [("A", ["2024-06-07T00:00:00Z"; "2024-06-08T00:00:00Z"]);
                    ("B", ["2024-06-05T00:00:00Z"]);
                    ("C", ["2024-06-02T00:00:00Z"; "2024-06-09T00:00:00Z"])]
                   (mkdate 2024 6 1) (mkdate 2024 6 10) (Some 2) =
                 Some ((1, 3), [Option_line 1 ["2024-06-07"; "2024-06-08"];
                                Available_site_line 1 "A"]))
    by (vm_compute; reflexivity).
  split; [exact Hret|].
  exact (proj1 (return_shape _ _ _ _) _ _ _ Hret).
Defined.

(** On a window before year 1000 the analyzer can raise instead of
    returning a pair: the Friday 999-06-07 is written "999-06-07T00:00:00Z"
    into the day set, a site that lists this string passes the
    intersection, and [strptime] refuses the three-digit year. *)
Lemma analyzer_raises_before_1000 :
  let s := mkdate 999 6 1 in
  let e := mkdate 999 6 10 in
  valid s /\ valid e /\
  valid_date "0999-06-01" = Some s /\ valid_date "0999-06-10" = Some e /\
  In "999-06-07T00:00:00Z" (desired_dates s e) /\
  consecutive_nights ["999-06-07T00:00:00Z"] 1 = None /\
  get_num_available_sites [("A", ["999-06-07T00:00:00Z"])] s e None = None.
Proof.
  split; [cbv; intuition discriminate|].
  split; [cbv; intuition discriminate|].
  split; [vm_compute; reflexivity|].
  split; [vm_compute; reflexivity|].
  split; [vm_compute; right; right; left; reflexivity|].
  split; vm_compute; reflexivity.
Qed.

(* ================================================================= *)
(** ** The normalizer *)

Lemma type_okb_ok campsite_type campsite_data :
  type_okb campsite_type campsite_data = true <-> type_ok campsite_type campsite_data.
Proof.
  unfold type_okb, type_ok. destruct campsite_type as [t|].
  - rewrite orb_true_iff, !String.eqb_eq. split.
    + intros [-> | ->] t' [= <-] Hne; [contradiction | reflexivity].
    + intros H. destruct (String.eqb_spec t ""); [now left|].
      right. symmetry. now apply H.
  - split; [discriminate | reflexivity].
Qed.

Lemma available_step_keeps campsite_type campsite_data available date value :
  available_step campsite_type campsite_data available (date, value) =
  if String.eqb value "Available" && type_okb campsite_type campsite_data
  then available ++ [date] else available.
Proof.
  unfold available_step, type_okb, truthy.
  destruct (String.eqb value "Available"); cbn [negb andb]; [|reflexivity].
  destruct campsite_type as [t|]; [|reflexivity].
  destruct (String.eqb t ""); cbn [negb andb orb]; [reflexivity|].
  destruct (String.eqb t (campsite_type_of campsite_data)); reflexivity.
Qed.

Lemma available_fold campsite_type campsite_data items : forall available,
  fold_left (available_step campsite_type campsite_data) items available =
  available ++
  map fst (filter (fun item => String.eqb (snd item) "Available" &&
                               type_okb campsite_type campsite_data) items).
Proof.
  induction items as [|[date value] items IH]; intros available.
  - cbn. now rewrite app_nil_r.
  - cbn [fold_left filter snd]. rewrite available_step_keeps, IH.
    destruct (String.eqb value "Available" && type_okb campsite_type campsite_data).
    + cbn [map fst]. now rewrite <- app_assoc.
    + reflexivity.
Qed.

Lemma available_of_In campsite_type campsite_data date :
  In date (available_of campsite_type campsite_data) <->
  In (date, "Available") (availabilities campsite_data) /\
  type_ok campsite_type campsite_data.
Proof.
  unfold available_of. rewrite available_fold. cbn [app].
  rewrite in_map_iff. split.
  - intros ([d v] & <- & H). apply filter_In in H as [Hin Hk].
    cbn [fst snd] in *. apply andb_prop in Hk as [Hv Ht].
    apply String.eqb_eq in Hv. subst v.
    split; [exact Hin | now apply type_okb_ok].
  - intros [Hin Ht]. exists (date, "Available"). split; [reflexivity|].
    apply filter_In. split; [exact Hin|]. cbn [snd].
    apply type_okb_ok in Ht. now rewrite Ht.
Qed.

Lemma dates_of_setdefault_extend data k v site :
  dates_of (setdefault_extend data k v) site =
  dates_of data site ++ (if String.eqb site k then v else []).
Proof.
  unfold dates_of. induction data as [|[k' v'] data IH].
  - cbn [setdefault_extend dict_get]. destruct (String.eqb site k); reflexivity.
  - cbn [setdefault_extend dict_get].
    destruct (String.eqb_spec k k') as [-> | Hne].
    + cbn [dict_get]. destruct (String.eqb_spec site k'); [reflexivity|].
      now rewrite app_nil_r.
    + cbn [dict_get]. destruct (String.eqb_spec site k') as [-> | Hne'].
      * destruct (String.eqb_spec k' k); [congruence|]. now rewrite app_nil_r.
      * exact IH.
Qed.

Lemma get_setdefault_extend data k v site ds :
  dict_get (setdefault_extend data k v) site = Some ds ->
  dict_get data site = Some ds \/
  (site = k /\ ds = dates_of data k ++ v).
Proof.
  unfold dates_of. induction data as [|[k' v'] data IH]; cbn [setdefault_extend dict_get].
  - destruct (String.eqb_spec site k) as [-> | Hne]; [|discriminate].
    intros [= <-]. now right.
  - destruct (String.eqb_spec k k') as [-> | Hne]; cbn [dict_get].
    + destruct (String.eqb_spec site k') as [-> | Hne']; [|now left].
      intros [= <-]. right. split; reflexivity.
    + destruct (String.eqb_spec site k') as [-> | Hne']; [now left|].
      intros H. destruct (IH H) as [H' | [-> ->]]; [now left|].
      right. split; reflexivity.
Qed.

Lemma campsite_step_spec campsite_type data id campsite_data :
  no_empty data ->
  no_empty (campsite_step campsite_type data (id, campsite_data)) /\
  forall site,
    dates_of (campsite_step campsite_type data (id, campsite_data)) site =
    dates_of data site ++
    (if String.eqb site id then available_of campsite_type campsite_data else []).
Proof.
  intros Hne. unfold campsite_step.
  destruct (available_of campsite_type campsite_data) as [|d ds] eqn:E.
  - split; [exact Hne|]. intros site.
    destruct (String.eqb site id); now rewrite app_nil_r.
  - split; [|intros site; apply dates_of_setdefault_extend].
    intros site l H. apply get_setdefault_extend in H as [H | [-> ->]].
    + exact (Hne _ _ H).
    + intros Habs. apply app_eq_nil in Habs as [_ Habs]. discriminate.
Qed.

Lemma month_step_spec campsite_type md : forall data,
  no_empty data ->
  no_empty (month_step campsite_type data md) /\
  forall site,
    dates_of (month_step campsite_type data md) site =
    dates_of data site ++
    flat_map (fun item => if String.eqb site (fst item)
                          then available_of campsite_type (snd item) else [])
             (campsites md).
Proof.
  unfold month_step. induction (campsites md) as [|[id cd] items IH]; intros data Hne.
  - cbn. split; [exact Hne|]. intros site. now rewrite app_nil_r.
  - cbn [fold_left flat_map fst snd].
    destruct (campsite_step_spec campsite_type data id cd Hne) as [Hne' Hd].
    destruct (IH _ Hne') as [Hne'' Hd'].
    split; [exact Hne''|]. intros site.
    now rewrite Hd', Hd, <- app_assoc.
Qed.

Lemma collapse_from campsite_type api_data : forall data,
  no_empty data ->
  no_empty (fold_left (month_step campsite_type) api_data data) /\
  forall site,
    dates_of (fold_left (month_step campsite_type) api_data data) site =
    dates_of data site ++
    flat_map (fun md =>
      flat_map (fun item => if String.eqb site (fst item)
                            then available_of campsite_type (snd item) else [])
               (campsites md)) api_data.
Proof.
  induction api_data as [|md api_data IH]; intros data Hne.
  - cbn. split; [exact Hne|]. intros site. now rewrite app_nil_r.
  - cbn [fold_left flat_map].
    destruct (month_step_spec campsite_type md data Hne) as [Hne' Hd].
    destruct (IH _ Hne') as [Hne'' Hd'].
    split; [exact Hne''|]. intros site.
    now rewrite Hd', Hd, <- app_assoc.
Qed.

(** The list of a site in the output is the concatenation, payload after
    payload, of its dates that pass the filters; no list is empty. *)
Lemma collapse_spec api_data campsite_type :
  no_empty (collapse api_data campsite_type) /\
  forall site,
    dates_of (collapse api_data campsite_type) site =
    flat_map (fun md =>
      flat_map (fun item => if String.eqb site (fst item)
                            then available_of campsite_type (snd item) else [])
               (campsites md)) api_data.
Proof.
  unfold collapse.
  destruct (collapse_from campsite_type api_data []) as [H1 H2].
  - intros site ds H. discriminate H.
  - split; [exact H1 | exact H2].
Qed.

Lemma dates_of_collapse_In api_data campsite_type site date :
  In date (dates_of (collapse api_data campsite_type) site) <->
  contributes api_data campsite_type site date.
Proof.
  rewrite (proj2 (collapse_spec api_data campsite_type)).
  unfold contributes. rewrite in_flat_map. split.
  - intros (md & Hmd & H). apply in_flat_map in H as ([id cd] & Hcd & H).
    cbn [fst snd] in H. destruct (String.eqb_spec site id) as [-> | Hne]; [|destruct H].
    apply available_of_In in H as [Hin Ht].
    exists md, cd. now repeat split.
  - intros (md & cd & Hmd & Hcd & Hin & Ht).
    exists md. split; [exact Hmd|]. apply in_flat_map.
    exists (site, cd). split; [exact Hcd|]. cbn [fst snd].
    rewrite String.eqb_refl. apply available_of_In. now split.
Qed.

(** C6. Normalizer filtering: the list of a site in the output holds a
    date string exactly when some month payload gives that date the status
    "Available" on an entry of that site whose campsite_type equals the
    filter, if a non-empty filter is supplied; a site of the output has at
    least one date, and a site for which no date survives is not a key of
    the output. *)
Theorem normalizer_filtering (api_data : list month_data)
    (campsite_type : option string) (site : string) :
  (forall ds, dict_get (collapse api_data campsite_type) site = Some ds ->
     ds <> [] /\
     forall date, In date ds <-> contributes api_data campsite_type site date) /\
  ((forall date, ~ contributes api_data campsite_type site date) ->
   dict_get (collapse api_data campsite_type) site = None).
Proof.
  pose proof (collapse_spec api_data campsite_type) as [Hne _].
  split.
  - intros ds H. split; [exact (Hne _ _ H)|]. intros date.
    rewrite <- dates_of_collapse_In. unfold dates_of. now rewrite H.
  - intros Hnone.
    destruct (dict_get (collapse api_data campsite_type) site) as [ds|] eqn:E;
      [|reflexivity].
    destruct ds as [|d ds]; [now destruct (Hne _ _ E)|].
    exfalso. apply (Hnone d). apply dates_of_collapse_In.
    unfold dates_of. rewrite E. now left.
Qed.

Lemma normalizer_filtering_witness :
  let api_data :=
    [mkmonth [("1", mkcampsite "STANDARD NONELECTRIC"
                      [("2024-06-07T00:00:00Z", "Available");
                       ("2024-06-08T00:00:00Z", "Reserved")]);
              ("2", mkcampsite "TENT ONLY NONELECTRIC"
                      [("2024-06-07T00:00:00Z", "Available")])]] in
  dict_get (collapse api_data (Some "STANDARD NONELECTRIC")) "1"
    = Some ["2024-06-07T00:00:00Z"] /\
  contributes api_data (Some "STANDARD NONELECTRIC") "1" "2024-06-07T00:00:00Z" /\
  dict_get (collapse api_data (Some "STANDARD NONELECTRIC")) "2" = None.
Proof.
  split; [reflexivity|]. split; [|reflexivity].
  apply (proj2 (proj1 (normalizer_filtering
                         [mkmonth [("1", mkcampsite "STANDARD NONELECTRIC"
                                     [("2024-06-07T00:00:00Z", "Available");
                                      ("2024-06-08T00:00:00Z", "Reserved")]);
                                   ("2", mkcampsite "TENT ONLY NONELECTRIC"
                                     [("2024-06-07T00:00:00Z", "Available")])]]
                         (Some "STANDARD NONELECTRIC") "1")
                  ["2024-06-07T00:00:00Z"] eq_refl)).
  now left.
Defined.

Lemma fold_left_ext {A B : Type} (f g : A -> B -> A) :
  (forall a b, f a b = g a b) ->
  forall l a, fold_left f l a = fold_left g l a.
Proof.
  intros H l. induction l as [|b l IH]; intros a; [reflexivity|].
  cbn [fold_left]. now rewrite H, IH.
Qed.

Lemma available_of_falsy campsite_data :
  available_of (Some "") campsite_data = available_of None campsite_data.
Proof. unfold available_of. now rewrite !available_fold. Qed.

Lemma collapse_falsy api_data :
  collapse api_data (Some "") = collapse api_data None.
Proof.
  unfold collapse. apply fold_left_ext. intros data md.
  unfold month_step. apply fold_left_ext. intros data' [id cd].
  unfold campsite_step. now rewrite available_of_falsy.
Qed.

Lemma contributes_falsy api_data campsite_type site date :
  truthy campsite_type = false ->
  contributes api_data campsite_type site date <->
  available_somewhere api_data site date.
Proof.
  intros Hf. unfold contributes, available_somewhere.
  assert (Hok : forall cd, type_ok campsite_type cd).
  { intros cd t -> Hne. cbn [truthy] in Hf.
    apply negb_false_iff, String.eqb_eq in Hf. contradiction. }
  split.
  - intros (md & cd & H1 & H2 & H3 & _). now exists md, cd.
  - intros (md & cd & H1 & H2 & H3). exists md, cd.
    split; [exact H1|]. split; [exact H2|]. split; [exact H3 | apply Hok].
Qed.

(** C10. When the [campsite_type] argument is [None] or the empty string
    no type filtering happens: a date is in a site's list whenever some
    payload marks it "Available" for that site, whatever the declared
    type, and both arguments give the same output; for a non-empty filter
    the declared type has to equal it; a call that leaves the argument out
    filters by "STANDARD NONELECTRIC". *)
Theorem falsy_filter_keeps_all_types (api_data : list month_data)
    (site date : string) :
  (In date (dates_of (collapse api_data None) site) <->
     available_somewhere api_data site date) /\
  (In date (dates_of (collapse api_data (Some "")) site) <->
     available_somewhere api_data site date) /\
  collapse api_data (Some "") = collapse api_data None /\
  (forall t, t <> "" ->
     (In date (dates_of (collapse api_data (Some t)) site) <->
      exists md campsite_data,
        In md api_data /\ In (site, campsite_data) (campsites md) /\
        In (date, "Available") (availabilities campsite_data) /\
        campsite_type_of campsite_data = t)) /\
  DEFAULT_CAMPSITE_TYPE = "STANDARD NONELECTRIC" /\
  (forall send_request park_id start_date end_date,
     get_park_information_default send_request park_id start_date end_date =
     get_park_information send_request park_id start_date end_date
       (Some "STANDARD NONELECTRIC")).
Proof.
  split; [|split; [|split; [|split; [|split]]]].
  - rewrite dates_of_collapse_In. now apply contributes_falsy.
  - rewrite dates_of_collapse_In. now apply contributes_falsy.
  - apply collapse_falsy.
  - intros t Hne. rewrite dates_of_collapse_In. unfold contributes, type_ok.
    split.
    + intros (md & cd & H1 & H2 & H3 & H4). exists md, cd.
      repeat split; auto.
    + intros (md & cd & H1 & H2 & H3 & H4). exists md, cd.
      repeat split; auto. intros t' [= <-] _. exact H4.
  - reflexivity.
  - reflexivity.
Qed.

Lemma falsy_filter_keeps_all_types_witness :
  let api_data :=
    [mkmonth [("2", mkcampsite "TENT ONLY NONELECTRIC"
                      [("2024-06-07T00:00:00Z", "Available")])]] in
  available_somewhere api_data "2" "2024-06-07T00:00:00Z" /\
  In "2024-06-07T00:00:00Z" (dates_of (collapse api_data (Some "")) "2") /\
  In "2024-06-07T00:00:00Z" (dates_of (collapse api_data None) "2") /\
  dict_get (collapse api_data (Some DEFAULT_CAMPSITE_TYPE)) "2" = None.
Proof.
  assert (H : available_somewhere
                [mkmonth [("2", mkcampsite "TENT ONLY NONELECTRIC"
                                  [("2024-06-07T00:00:00Z", "Available")])]]
                "2" "2024-06-07T00:00:00Z").
  { exists (mkmonth [("2", mkcampsite "TENT ONLY NONELECTRIC"
                                   [("2024-06-07T00:00:00Z", "Available")])]),
           (mkcampsite "TENT ONLY NONELECTRIC"
                       [("2024-06-07T00:00:00Z", "Available")]).
    cbn. auto. }
  split; [exact H|].
  pose proof (falsy_filter_keeps_all_types
                [mkmonth [("2", mkcampsite "TENT ONLY NONELECTRIC"
                                  [("2024-06-07T00:00:00Z", "Available")])]]
                "2" "2024-06-07T00:00:00Z") as (H1 & H2 & _).
  split; [exact (proj2 H2 H)|]. split; [exact (proj2 H1 H) | reflexivity].
Defined.

(* ================================================================= *)
(** ** The fetcher: one request per month *)

Lemma range_nil lo hi : hi <= lo -> range lo hi = [].
Proof.
  intros H. unfold range. replace (Z.to_nat (hi - lo)) with 0%nat by lia.
  reflexivity.
Qed.

Lemma range_cons lo hi : lo < hi -> range lo hi = lo :: range (lo + 1) hi.
Proof.
  intros H. unfold range.
  replace (Z.to_nat (hi - lo)) with (S (Z.to_nat (hi - (lo + 1)))) by lia.
  cbn [seq map]. f_equal; [lia|].
  rewrite <- seq_shift, map_map. apply map_ext. intros i. lia.
Qed.

Lemma range_length lo hi : lo <= hi -> Z.of_nat (List.length (range lo hi)) = hi - lo.
Proof. intros H. unfold range. rewrite length_map, length_seq. lia. Qed.

Lemma range_NoDup lo hi : NoDup (range lo hi).
Proof.
  unfold range. generalize (Z.to_nat (hi - lo)). intros n.
  generalize (seq_NoDup n 0). generalize (seq 0 n). intros l.
  induction 1 as [|x l Hx Hl IH]; cbn [map]; constructor; [|exact IH].
  rewrite in_map_iff. intros (y & E & Hy). assert (y = x) by lia. now subst.
Qed.

Lemma next_month_index dt :
  1 <= month dt <= 12 ->
  month_index (next_month dt) = month_index dt + 1 /\
  1 <= month (next_month dt) <= 12 /\ day (next_month dt) = day dt.
Proof.
  intros H. unfold next_month, month_index.
  destruct (Z.eqb_spec (month dt) 12) as [E | E]; cbn [year month day]; lia.
Qed.

Lemma date_leb_index cur until :
  1 <= month cur <= 12 -> 1 <= month until <= 12 ->
  day cur = 1 -> 1 <= day until ->
  date_leb cur until = (month_index cur <=? month_index until).
Proof.
  intros Hc Hu Hd Hd'. unfold date_leb, month_index.
  destruct (Z.ltb_spec (year cur) (year until)),
           (Z.eqb_spec (year cur) (year until)),
           (Z.ltb_spec (month cur) (month until)),
           (Z.eqb_spec (month cur) (month until)),
           (Z.leb_spec (day cur) (day until)),
           (Z.leb_spec (12 * year cur + (month cur - 1))
                       (12 * year until + (month until - 1)));
    cbn [orb andb]; try reflexivity; lia.
Qed.

Lemma first_of_month_index dt :
  1 <= month dt <= 12 -> day dt = 1 -> first_of_month (month_index dt) = dt.
Proof.
  intros Hm Hd. destruct dt as [y m d]. cbn [year month day] in *. subst d.
  unfold first_of_month, month_index. cbn [year month day].
  f_equal; divmod.
Qed.

(** With enough fuel the iteration stops on its own test, and gives the
    first days of the months from the one of [cur] to the one of
    [until]. *)
Lemma rrule_from_spec until :
  1 <= month until <= 12 -> 1 <= day until ->
  forall fuel cur,
    1 <= month cur <= 12 -> day cur = 1 ->
    month_index until - month_index cur + 1 <= Z.of_nat fuel ->
    rrule_from fuel cur until =
    map first_of_month (range (month_index cur) (month_index until + 1)).
Proof.
  intros Hu Hd. induction fuel as [|fuel IH]; intros cur Hc Hc1 Hfuel.
  - rewrite range_nil by lia. reflexivity.
  - cbn [rrule_from]. rewrite (date_leb_index cur until Hc Hu Hc1 Hd).
    destruct (Z.leb_spec (month_index cur) (month_index until)) as [Hle | Hgt].
    + rewrite range_cons by lia. cbn [map].
      destruct (next_month_index cur Hc) as (Hi & Hm & Hday).
      rewrite IH by (try assumption; lia).
      rewrite Hi. f_equal. symmetry. now apply first_of_month_index.
    + rewrite range_nil by lia. reflexivity.
Qed.

Lemma months_of_spec start_date end_date :
  valid start_date -> valid end_date ->
  months_of start_date end_date =
  map first_of_month
    (range (month_index start_date) (month_index end_date + 1)).
Proof.
  intros (_ & Hm & _) (_ & Hm' & Hd' & _).
  unfold months_of, rrule_monthly.
  rewrite rrule_from_spec; try assumption; try reflexivity.
  unfold month_index. cbn [year month day]. lia.
Qed.

Lemma first_of_month_inj i j : first_of_month i = first_of_month j -> i = j.
Proof. unfold first_of_month. intros [= H1 H2]. divmod. Qed.

Lemma NoDup_map_injective {A B : Type} (f : A -> B) (l : list A) :
  (forall x y, f x = f y -> x = y) -> NoDup l -> NoDup (map f l).
Proof.
  intros Hf. induction 1 as [|x l Hx Hl IH]; cbn [map]; constructor; [|exact IH].
  rewrite in_map_iff. intros (y & E & Hy). apply Hf in E. now subst.
Qed.

Lemma fetch_months_sent send_request park_id months : forall api_data sent r,
  fst (fetch_months send_request park_id months api_data sent) = Returns r ->
  snd (fetch_months send_request park_id months api_data sent) =
  sent ++ map (month_request park_id) months.
Proof.
  induction months as [|m months IH]; intros api_data sent r H.
  - cbn. now rewrite app_nil_r.
  - cbn [fetch_months map] in *. fold (month_request park_id m) in *.
    destruct (send_request (month_request park_id m)) as [[resp|]|].
    + rewrite (IH _ _ _ H). now rewrite <- app_assoc.
    + rewrite (IH _ _ _ H). now rewrite <- app_assoc.
    + discriminate H.
Qed.

(** C7. Month enumeration: the months the fetcher walks through are the
    first days of the months from the month of the start date through the
    month of the end date, each once and in order; a fetch that completes
    has sent exactly one request per such month; and for a start date not
    after the end date their number is the number of months spanned. *)
Theorem month_enumeration
    (send_request : request -> outcome (option month_data)) (park_id : Z)
    (start_date end_date : datetime) (campsite_type : option string) :
  valid start_date -> valid end_date ->
  let months := months_of start_date end_date in
  months = map first_of_month
             (range (month_index start_date) (month_index end_date + 1)) /\
  NoDup months /\
  (forall data,
     fst (get_park_information send_request park_id start_date end_date
            campsite_type) = Returns data ->
     snd (get_park_information send_request park_id start_date end_date
            campsite_type) = map (month_request park_id) months) /\
  (date_leb start_date end_date = true ->
   Z.of_nat (List.length months) =
   month_index end_date - month_index start_date + 1).
Proof.
  intros Hs He months.
  pose proof (months_of_spec _ _ Hs He) as E. fold months in E.
  split; [exact E|]. split; [|split].
  - rewrite E. apply NoDup_map_injective; [|apply range_NoDup].
    intros i j. apply first_of_month_inj.
  - intros data. unfold get_park_information. fold months.
    pose proof (fetch_months_sent send_request park_id months [] []) as F.
    destruct (fetch_months send_request park_id months [] []) as [[r|] sent];
      cbn [fst snd] in *; [|discriminate].
    intros _. exact (F r eq_refl).
  - intros L. rewrite E, length_map.
    assert (month_index start_date <= month_index end_date).
    { destruct Hs as (_ & Hm & _), He as (_ & Hm' & _).
      unfold date_leb in L. unfold month_index.
      destruct (Z.ltb_spec (year start_date) (year end_date)),
               (Z.eqb_spec (year start_date) (year end_date)),
               (Z.ltb_spec (month start_date) (month end_date)),
               (Z.eqb_spec (month start_date) (month end_date));
        cbn [orb andb] in L; try discriminate L; lia. }
    rewrite range_length; lia.
Qed.

(** From 2024-06-25 to 2024-07-05: two requests, for June 1st and for
    July 1st. *)
Lemma month_enumeration_witness :
  let s := mkdate 2024 6 25 in
  let e := mkdate 2024 7 5 in
  valid s /\ valid e /\ date_leb s e = true /\
  months_of s e = [mkdate 2024 6 1; mkdate 2024 7 1] /\
  Z.of_nat (List.length (months_of s e)) = 2 /\
  snd (get_park_information (fun _ => Returns None) 232447 s e None) =
    [mkrequest 232447 "2024-06-01T00:00:00.000Z";
     mkrequest 232447 "2024-07-01T00:00:00.000Z"].
Proof.
  assert (Hs : valid (mkdate 2024 6 25)) by (cbv; intuition discriminate).
  assert (He : valid (mkdate 2024 7 5)) by (cbv; intuition discriminate).
  destruct (month_enumeration (fun _ => Returns None) 232447
              (mkdate 2024 6 25) (mkdate 2024 7 5) None Hs He)
    as (E & _ & Hsent & Hlen).
  split; [exact Hs | split; [exact He | split; [reflexivity |]]].
  split; [exact E | split; [exact (Hlen eq_refl) |]].
  exact (Hsent _ eq_refl).
Defined.

(* ================================================================= *)
(** ** Grouped-file mode *)

Section Groups.

Variable args : arguments.
Variable today : datetime.
Variable send_request : request -> outcome (option month_data).
Variable get_name_of_site : Z -> outcome (option string).

Lemma group_loop_counts parks_dict : forall code,
  fold_left (group_code args today send_request get_name_of_site)
    parks_dict code =
  code + Z.of_nat (List.length
    (filter (no_availability args today send_request get_name_of_site)
       parks_dict)).
Proof.
  induction parks_dict as [|g rest IH]; intros code.
  - cbn. lia.
  - cbn [fold_left filter]. rewrite IH.
    unfold group_code, no_availability.
    destruct (main args today send_request get_name_of_site (snd g))
      as [[|]|]; cbn [List.length]; lia.
Qed.

(** Every group is processed, and the exit code is the number of
    groups whose [main] returned without availability: a group whose
    [main] raised adds nothing to it. *)
Lemma run_groups_counts parks_dict :
  run_groups args today send_request get_name_of_site parks_dict =
  Z.of_nat (List.length
    (filter (no_availability args today send_request get_name_of_site)
       parks_dict)).
Proof. unfold run_groups. now rewrite group_loop_counts. Qed.

End Groups.

(** C5 at a failing input. One group whose processing raises (the name
    request fails with an exception): grouped-file mode exits with 0, not
    with the 1 that counting the group as a failure would give, while
    park-list mode lets the same exception end the process. *)
Theorem raised_group_not_counted :
  let args := mkargs (Some (mkdate 2024 6 1)) (Some (mkdate 2024 6 10)) None None in
  let today := mkdate 2024 5 1 in
  let send_request := fun _ : request => Returns (@None month_data) in
  let get_name_of_site := fun _ : Z => @Raises (option string) in
  main args today send_request get_name_of_site [232447] = Raises /\
  run_groups args today send_request get_name_of_site [("weekend", [232447])] = 0 /\
  run_parks args today send_request get_name_of_site [232447] = Raises /\
  run_groups args today send_request get_name_of_site
    [("weekend", [232447]); ("empty", [])] = 1.
Proof. repeat split. Qed.

(* ================================================================= *)
(** ** Further properties of the analyzer *)

(** Four days in a row do not all fall on Friday, Saturday or Sunday. *)
Lemma no_four_weekend_days (S : list Z) a n :
  Forall (fun o => 4 <= (o + 6) mod 7 <= 6) S -> is_run S a n -> n <= 3.
Proof.
  intros HS [Hn Hrun]. rewrite Forall_forall in HS.
  destruct (Z_le_gt_dec n 3) as [|Hgt]; [assumption | exfalso].
  pose proof (HS _ (Hrun 0 ltac:(lia))) as H0.
  pose proof (HS _ (Hrun 1 ltac:(lia))) as H1.
  pose proof (HS _ (Hrun 2 ltac:(lia))) as H2.
  pose proof (HS _ (Hrun 3 ltac:(lia))) as H3.
  revert H0 H1 H2 H3. divmod.
Qed.

Lemma site_not_counted_from_four start_date end_date nights availabilities :
  valid start_date -> valid end_date -> 4 <= nights ->
  site_counted (desired_dates start_date end_date) nights availabilities = false.
Proof.
  intros Hs He Hn.
  destruct (site_counted (desired_dates start_date end_date) nights availabilities)
    eqn:C; [exfalso | reflexivity].
  apply site_counted_runs in C as (ords & Ho & _ & E).
  destruct (ordinals_of_desired_facts _ _ availabilities Hs He ords Ho) as [_ Hw].
  destruct (existsb_long_enough _ _ E) as (r & Hr & Hlen).
  assert (Hw' : Forall (fun o => 4 <= (o + 6) mod 7 <= 6) ords).
  { eapply Forall_impl; [|exact Hw]. intros o [_ H]. exact H. }
  pose proof (no_four_weekend_days _ _ _ Hw' (runs_is_run _ _ Hr)). lia.
Qed.

Lemma filter_none {A : Type} (f : A -> bool) (l : list A) :
  (forall x, In x l -> f x = false) -> filter f l = [].
Proof.
  induction l as [|x l IH]; intros H; [reflexivity|].
  cbn [filter]. rewrite (H x (or_introl eq_refl)).
  apply IH. intros y Hy. apply H. now right.
Qed.

Lemma count_zero_from_four (park_information : dict (list string))
    start_date end_date nights :
  valid start_date -> valid end_date -> 4 <= nights ->
  filter (fun item => site_counted (desired_dates start_date end_date) nights
                        (snd item)) park_information = [].
Proof.
  intros Hs He Hn. apply filter_none.
  intros [site av] _. now apply site_not_counted_from_four.
Qed.

(** X1. The day set only holds Fridays, Saturdays and Sundays, so no run
    of a site is longer than three nights: as soon as the effective
    nights value is four or more, a call of the analyzer that returns has
    counted no site and reported none, whatever the availability map
    holds; and on a window that starts in year 1000 or later the call
    does return. *)
Theorem four_nights_never_found (park_information : dict (list string))
    (start_date end_date : datetime) (nights : option Z) :
  valid start_date -> valid end_date ->
  4 <= effective_nights nights (days_between end_date start_date) ->
  (forall num_available maximum out,
     get_num_available_sites park_information start_date end_date nights =
       Some ((num_available, maximum), out) ->
     num_available = 0 /\
     maximum = Z.of_nat (List.length park_information) /\
     forall k site, ~ In (Available_site_line k site) out) /\
  (1000 <= year start_date ->
   exists out,
     get_num_available_sites park_information start_date end_date nights =
       Some ((0, Z.of_nat (List.length park_information)), out)).
Proof.
  intros Hs He Hn. split.
  - intros num_available maximum out Hret.
    apply get_num_available_sites_some in Hret as (_ & Hc & Hm & Hout).
    rewrite count_zero_from_four in Hc, Hout by assumption.
    split; [exact Hc|]. split; [exact Hm|].
    intros k site Hin. apply site_lines_In in Hin. rewrite Hout in Hin.
    destruct Hin.
  - intros Hy.
    destruct (get_num_available_sites_returns park_information _ _ nights Hs He Hy)
      as (out & Hret & _).
    rewrite count_zero_from_four in Hret by assumption.
    exists out. exact Hret.
Qed.

Lemma four_nights_never_found_witness :
  let s := mkdate 2024 6 1 in
  let e := mkdate 2024 6 30 in
  let av := ["2024-06-07T00:00:00Z"; "2024-06-08T00:00:00Z"; "2024-06-09T00:00:00Z"] in
  valid s /\ valid e /\ 4 <= effective_nights None (days_between e s) /\
  1000 <= year s /\
  get_num_available_sites [("A", av)] s e None = Some ((0, 1), []) /\
  exists out,
    get_num_available_sites [("A", av)] s e None = Some ((0, 1), out) /\
    forall k site, ~ In (Available_site_line k site) out.
Proof.
  assert (Hs : valid (mkdate 2024 6 1)) by (cbv; intuition discriminate).
  assert (He : valid (mkdate 2024 6 30)) by (cbv; intuition discriminate).
  assert (Hn : 4 <= effective_nights None
                      (days_between (mkdate 2024 6 30) (mkdate 2024 6 1)))
    by (vm_compute; discriminate).
  assert (Hy : 1000 <= year (mkdate 2024 6 1)) by (vm_compute; discriminate).
  split; [exact Hs | split; [exact He | split; [exact Hn | split; [exact Hy |]]]].
  split; [vm_compute; reflexivity|].
  destruct (four_nights_never_found
              [("A", ["2024-06-07T00:00:00Z"; "2024-06-08T00:00:00Z";
                      "2024-06-09T00:00:00Z"])]
              (mkdate 2024 6 1) (mkdate 2024 6 30) None Hs He Hn)
    as (Hall & Hret).
  destruct (Hret Hy) as (out & Hout).
  exists out. split; [exact Hout|].
  exact (proj2 (proj2 (Hall _ _ _ Hout))).
Defined.

Lemma desired_dates_empty start_date end_date :
  days_between end_date start_date <= 0 ->
  desired_dates start_date end_date = [].
Proof.
  intros H. unfold desired_dates. rewrite range_nil by lia. reflexivity.
Qed.

Lemma site_loop_no_dates nights park_information : forall st,
  fold_left (site_step [] nights) park_information (Some st) = Some st.
Proof.
  induction park_information as [|[site av] rest IH]; intros [n out];
    [reflexivity|].
  cbn [fold_left site_step].
  replace (filter (fun date => mem date []) av) with (@nil string).
  - apply IH.
  - symmetry. apply filter_none. reflexivity.
Qed.

(** X2. When the end date is not after the start date the day set is
    empty: the analyzer returns 0 qualifying sites out of the size of the
    map and prints nothing, for every map and every nights value. *)
Theorem empty_window_counts_nothing (park_information : dict (list string))
    (start_date end_date : datetime) (nights : option Z) :
  days_between end_date start_date <= 0 ->
  desired_dates start_date end_date = [] /\
  get_num_available_sites park_information start_date end_date nights =
    Some ((0, Z.of_nat (List.length park_information)), []).
Proof.
  intros H. pose proof (desired_dates_empty _ _ H) as E.
  split; [exact E|]. unfold get_num_available_sites.
  now rewrite E, site_loop_no_dates.
Qed.

Lemma empty_window_counts_nothing_witness :
  let s := mkdate 2024 6 10 in
  let e := mkdate 2024 6 7 in
  days_between e s <= 0 /\
  get_num_available_sites [("A", ["2024-06-08T00:00:00Z"])] s e (Some 1) =
    Some ((0, 1), []).
Proof.
  assert (H : days_between (mkdate 2024 6 7) (mkdate 2024 6 10) <= 0)
    by (vm_compute; discriminate).
  split; [exact H|].
  exact (proj2 (empty_window_counts_nothing [("A", ["2024-06-08T00:00:00Z"])]
                  (mkdate 2024 6 10) (mkdate 2024 6 7) (Some 1) H)).
Defined.

(** A nights value of at least one is clamped to the number of days of
    the window: the effective value is the smaller of the two. *)
Lemma effective_nights_is_min (n num_days : Z) :
  1 <= n -> effective_nights (Some n) num_days = Z.min n num_days.
Proof.
  intros H. unfold effective_nights.
  destruct (Z.leb_spec 1 n), (Z.ltb_spec n (num_days + 1)); cbn [andb]; lia.
Qed.

Lemma existsb_long_enough_mono n n' rs :
  n' <= n -> existsb (long_enough n) rs = true ->
  existsb (long_enough n') rs = true.
Proof.
  intros Hle H. apply existsb_exists in H as (r & Hr & Hl).
  apply existsb_exists. exists r. split; [exact Hr|].
  unfold long_enough in *. apply Z.leb_le in Hl. apply Z.leb_le. lia.
Qed.

Lemma site_counted_mono dates n n' availabilities :
  n' <= n ->
  site_counted dates n availabilities = true ->
  site_counted dates n' availabilities = true.
Proof.
  intros Hle C. apply site_counted_runs in C as (ords & Ho & Hne & E).
  apply site_counted_runs. exists ords.
  split; [exact Ho|]. split; [exact Hne|].
  now apply (existsb_long_enough_mono n).
Qed.

Lemma filter_length_mono {A : Type} (f g : A -> bool) (l : list A) :
  (forall x, In x l -> f x = true -> g x = true) ->
  (List.length (filter f l) <= List.length (filter g l))%nat.
Proof.
  induction l as [|x l IH]; intros H; [apply le_n|].
  cbn [filter].
  assert (IH' := IH (fun y Hy => H y (or_intror Hy))).
  destruct (f x) eqn:F.
  - rewrite (H x (or_introl eq_refl) F). cbn [List.length]. lia.
  - destruct (g x); cbn [List.length]; lia.
Qed.

(** X3. Asking for fewer nights never loses a site: for two nights
    values of at least one, on the same map and window, when the call
    with the larger value returns, the call with the smaller one returns
    a count at least as large with the same maximum; one of the two calls
    raises exactly when the other does; and on a window that starts in
    year 1000 or later both return. *)
Theorem fewer_nights_count_more (park_information : dict (list string))
    (start_date end_date : datetime) (n n' : Z) :
  1 <= n' <= n ->
  (forall c maximum out,
     get_num_available_sites park_information start_date end_date (Some n) =
       Some ((c, maximum), out) ->
     exists c' out',
       get_num_available_sites park_information start_date end_date (Some n') =
         Some ((c', maximum), out') /\
       c <= c') /\
  (get_num_available_sites park_information start_date end_date (Some n) = None
   <-> get_num_available_sites park_information start_date end_date (Some n')
       = None) /\
  (valid start_date -> valid end_date -> 1000 <= year start_date ->
   exists c c' out out',
     get_num_available_sites park_information start_date end_date (Some n) =
       Some ((c, Z.of_nat (List.length park_information)), out) /\
     get_num_available_sites park_information start_date end_date (Some n') =
       Some ((c', Z.of_nat (List.length park_information)), out') /\
     c <= c').
Proof.
  intros Hn.
  assert (Hle : forall (f g : string * list string -> bool),
            f = (fun item => site_counted (desired_dates start_date end_date)
                   (effective_nights (Some n) (days_between end_date start_date))
                   (snd item)) ->
            g = (fun item => site_counted (desired_dates start_date end_date)
                   (effective_nights (Some n') (days_between end_date start_date))
                   (snd item)) ->
            Z.of_nat (List.length (filter f park_information)) <=
            Z.of_nat (List.length (filter g park_information))).
  { intros f g -> ->. apply inj_le. apply filter_length_mono.
    intros [site av] _. cbn [snd]. apply site_counted_mono.
    rewrite !effective_nights_is_min by lia. lia. }
  assert (Hsome : forall c maximum out,
            get_num_available_sites park_information start_date end_date (Some n) =
              Some ((c, maximum), out) ->
            exists c' out',
              get_num_available_sites park_information start_date end_date (Some n') =
                Some ((c', maximum), out') /\
              c <= c').
  { intros c maximum out Hret.
    apply get_num_available_sites_some in Hret as (Hp & -> & -> & _).
    unfold get_num_available_sites at 1.
    destruct (site_loop_returns (desired_dates start_date end_date)
                (effective_nights (Some n') (days_between end_date start_date))
                park_information 0 [] Hp) as (out' & -> & _).
    eexists _, _. split; [reflexivity|].
    rewrite Z.add_0_l. now apply Hle. }
  split; [exact Hsome|]. split.
  - rewrite !get_num_available_sites_raises. reflexivity.
  - intros Hs He Hy.
    destruct (get_num_available_sites_returns park_information _ _ (Some n) Hs He Hy)
      as (out & Hret & _).
    destruct (Hsome _ _ _ Hret) as (c' & out' & Hret' & Hc).
    eexists _, c', out, out'. split; [exact Hret|]. split; [exact Hret' | exact Hc].
Qed.

Lemma fewer_nights_count_more_witness :
  let s := mkdate 2024 6 1 in
  let e := mkdate 2024 6 10 in
  let pi := [("A", ["2024-06-07T00:00:00Z"; "2024-06-08T00:00:00Z"]);
             ("B", ["2024-06-08T00:00:00Z"])] in
  1 <= 1 <= 2 /\
  get_num_available_sites pi s e (Some 2) =
    Some ((1, 2), [Option_line 1 ["2024-06-07"; "2024-06-08"];
                   Available_site_line 1 "A"]) /\
  exists c' out',
    get_num_available_sites pi s e (Some 1) = Some ((c', 2), out') /\
    1 <= c'.
Proof.
  assert (Hn : 1 <= 1 <= 2) by lia.
  assert (Hret : get_num_available_sites
                   [("A", ["2024-06-07T00:00:00Z"; "2024-06-08T00:00:00Z"]);
                    ("B", ["2024-06-08T00:00:00Z"])]
                   (mkdate 2024 6 1) (mkdate 2024 6 10) (Some 2) =
                 Some ((1, 2), [Option_line 1 ["2024-06-07"; "2024-06-08"];
                                Available_site_line 1 "A"]))
    by (vm_compute; reflexivity).
  split; [exact Hn|]. split; [exact Hret|].
  exact (proj1 (fewer_nights_count_more
                  [("A", ["2024-06-07T00:00:00Z"; "2024-06-08T00:00:00Z"]);
                   ("B", ["2024-06-08T00:00:00Z"])]
                  (mkdate 2024 6 1) (mkdate 2024 6 10) 2 1 Hn) _ _ _ Hret).
Defined.

Lemma runs_nonempty l : l <> [] -> exists r rs, runs l = r :: rs /\ r <> [].
Proof.
  destruct l as [|x l]; [contradiction|]. intros _.
  destruct (runs_cons x l) as (r & rs & E).
  exists (x :: r), rs. split; [exact E | discriminate].
Qed.

(** X5. With an effective nights value of one (or less), on a window
    that starts in year 1000 or later, a site is counted exactly when at
    least one of its dates is in the day set. *)
Theorem one_night_any_date (start_date end_date : datetime) (nights : Z)
    (availabilities : list string) :
  valid start_date -> valid end_date -> 1000 <= year start_date ->
  nights <= 1 ->
  site_counted (desired_dates start_date end_date) nights availabilities = true
  <-> exists date, In date availabilities /\
                   In date (desired_dates start_date end_date).
Proof.
  intros Hs He Hy Hn.
  destruct (ordinals_of_desired _ _ availabilities Hs He Hy) as (ords & Ho).
  destruct (site_step_ords _ nights "" availabilities 0 [] ords Ho) as [_ ->].
  destruct (filter (fun date => mem date (desired_dates start_date end_date))
              availabilities) as [|d l] eqn:F.
  - split; [discriminate|]. intros (date & H1 & H2).
    assert (Hin : In date (filter (fun date => mem date (desired_dates start_date end_date))
                        availabilities)).
    { apply filter_In. split; [exact H1 | now apply mem_In]. }
    rewrite F in Hin. destruct Hin.
  - split.
    + intros _. exists d.
      assert (Hin : In d (filter (fun date => mem date (desired_dates start_date end_date))
                        availabilities)) by (rewrite F; now left).
      apply filter_In in Hin as [H1 H2]. split; [exact H1 | now apply mem_In].
    + intros _.
      assert (Hne : ords <> []).
      { intros ->. apply ordinals_of_length in Ho. discriminate Ho. }
      destruct (runs_nonempty ords Hne) as (r & rs & -> & Hr).
      cbn [existsb]. apply orb_true_iff. left.
      unfold long_enough. apply Z.leb_le.
      destruct r; [contradiction | cbn [List.length]; lia].
Qed.

Lemma one_night_any_date_witness :
  let s := mkdate 2024 6 1 in
  let e := mkdate 2024 6 10 in
  valid s /\ valid e /\ 1000 <= year s /\ 1 <= 1 /\
  site_counted (desired_dates s e) 1
    ["2024-06-05T00:00:00Z"; "2024-06-08T00:00:00Z"] = true.
Proof.
  assert (Hs : valid (mkdate 2024 6 1)) by (cbv; intuition discriminate).
  assert (He : valid (mkdate 2024 6 10)) by (cbv; intuition discriminate).
  assert (Hy : 1000 <= year (mkdate 2024 6 1)) by (vm_compute; discriminate).
  assert (Hn : 1 <= 1) by lia.
  split; [exact Hs | split; [exact He | split; [exact Hy | split; [exact Hn |]]]].
  apply (proj2 (one_night_any_date (mkdate 2024 6 1) (mkdate 2024 6 10) 1
                  ["2024-06-05T00:00:00Z"; "2024-06-08T00:00:00Z"] Hs He Hy Hn)).
  exists "2024-06-08T00:00:00Z". split; [right; left; reflexivity|].
  vm_compute. right. left. reflexivity.
Defined.

Lemma runs_unfold x l :
  runs (x :: l) =
  match runs l with
  | (y :: r) :: rs =>
      if y =? x + 1 then (x :: y :: r) :: rs else [x] :: (y :: r) :: rs
  | _ => [[x]]
  end.
Proof. reflexivity. Qed.

(** In a strictly ascending list a run of consecutive days of the set
    lies inside one group of the partition; when it starts at the head of
    the list, inside the first group. *)
Lemma run_in_one_group l :
  StronglySorted Z.lt l ->
  forall a n, 1 <= n -> (forall k, 0 <= k < n -> In (a + k) l) ->
  exists r, In r (runs l) /\ (forall k, 0 <= k < n -> In (a + k) r) /\
            (a = hd 0 l -> r = hd [] (runs l)).
Proof.
  induction 1 as [|x l Hs IH Hx]; intros a n Hn Hrun.
  - destruct (Hrun 0 ltac:(lia)).
  - rewrite Forall_forall in Hx.
    destruct (Z.eq_dec a x) as [-> | Hax].
    + (* the run starts at the head *)
      destruct (Z.eq_dec n 1) as [-> | Hn1].
      * destruct (runs_cons x l) as (r & rs & E). rewrite E.
        exists (x :: r). split; [now left|]. split; [|reflexivity].
        intros k Hk. replace k with 0 by lia. rewrite Z.add_0_r. now left.
      * assert (Hrun' : forall k, 0 <= k < n - 1 -> In (x + 1 + k) l).
        { intros k Hk. destruct (Hrun (k + 1) ltac:(lia)) as [E | Hin];
            [lia | now replace (x + 1 + k) with (x + (k + 1)) by lia]. }
        destruct l as [|y l']; [destruct (Hrun' 0 ltac:(lia))|].
        assert (y = x + 1).
        { pose proof (Hx y (or_introl eq_refl)).
          destruct (Hrun' 0 ltac:(lia)) as [E | Hin]; [lia|].
          inversion Hs as [|? ? _ Hy]; subst. rewrite Forall_forall in Hy.
          specialize (Hy _ Hin). lia. }
        subst y.
        destruct (IH (x + 1) (n - 1) ltac:(lia) Hrun') as (r & Hr & Hall & Hfirst).
        specialize (Hfirst eq_refl).
        destruct (runs_cons (x + 1) l') as (r0 & rs & E).
        rewrite runs_unfold, E. rewrite E in Hfirst. cbn [hd] in Hfirst. subst r.
        rewrite Z.eqb_refl.
        exists (x :: x + 1 :: r0). split; [now left|]. split; [|reflexivity].
        intros k Hk. destruct (Z.eq_dec k 0) as [-> | Hk0].
        -- rewrite Z.add_0_r. now left.
        -- right. replace (x + k) with (x + 1 + (k - 1)) by lia.
           apply Hall. lia.
    + (* the head is not in the run *)
      assert (Hrun' : forall k, 0 <= k < n -> In (a + k) l).
      { intros k Hk. destruct (Hrun k Hk) as [E | Hin]; [|exact Hin].
        exfalso. destruct (Hrun 0 ltac:(lia)) as [E0 | Hin0]; [lia|].
        specialize (Hx _ Hin0). lia. }
      destruct (IH a n Hn Hrun') as (r & Hr & Hall & _).
      destruct l as [|y l']; [destruct (Hrun' 0 ltac:(lia))|].
      destruct (runs_cons y l') as (r0 & rs & E).
      rewrite runs_unfold, E. rewrite E in Hr.
      destruct (y =? x + 1).
      * destruct Hr as [<- | Hr].
        -- exists (x :: y :: r0). split; [now left|].
           split; [|cbn [hd]; intros; lia].
           intros k Hk. right. now apply Hall.
        -- exists r. split; [now right|]. split; [exact Hall|].
           cbn [hd]. intros; lia.
      * exists r. split; [now right|]. split; [exact Hall|].
        cbn [hd]. intros; lia.
Qed.

Lemma consecutive_lt_head r : consecutive r ->
  forall x, In x r -> hd 0 r <= x < hd 0 r + Z.of_nat (List.length r).
Proof.
  intros Hc x Hin. apply In_nth with (d := 0) in Hin as (i & Hi & <-).
  rewrite (consecutive_nth r Hc i Hi). lia.
Qed.

(** X4. Completeness on ascending listings: when the ordinals of a
    site's intersected dates are strictly ascending, the site is counted
    exactly when its set of dates holds a run of consecutive days at least
    as long as the nights value. *)
Theorem ascending_listing_complete (start_date end_date : datetime)
    (nights : Z) (availabilities : list string) (ords : list Z) :
  valid start_date -> valid end_date ->
  ordinals_of (filter (fun date => mem date (desired_dates start_date end_date))
                 availabilities) = Some ords ->
  StronglySorted Z.lt ords ->
  site_counted (desired_dates start_date end_date) nights availabilities = true
  <-> exists a len, is_run ords a len /\ nights <= len.
Proof.
  intros Hs He Ho Hsorted.
  destruct (site_step_ords _ nights "" availabilities 0 [] ords Ho) as [_ ->].
  split.
  - destruct (filter _ availabilities); [discriminate|].
    intros E. destruct (existsb_long_enough _ _ E) as (r & Hr & Hlen).
    exists (hd 0 r), (Z.of_nat (List.length r)).
    split; [now apply runs_is_run | exact Hlen].
  - intros (a & len & [Hlen Hrun] & Hn).
    destruct (filter _ availabilities) as [|d l].
    { cbn in Ho. injection Ho as <-. destruct (Hrun 0 ltac:(lia)). }
    destruct (run_in_one_group ords Hsorted a len Hlen Hrun) as (r & Hr & Hall & _).
    apply existsb_exists. exists r. split; [exact Hr|].
    unfold long_enough. apply Z.leb_le.
    pose proof (runs_consecutive ords) as Hc. rewrite Forall_forall in Hc.
    destruct (Hc r Hr) as [_ Hcons].
    pose proof (consecutive_lt_head r Hcons _ (Hall 0 ltac:(lia))).
    pose proof (consecutive_lt_head r Hcons _ (Hall (len - 1) ltac:(lia))).
    lia.
Qed.

Lemma ascending_listing_complete_witness :
  let s := mkdate 2024 6 1 in
  let e := mkdate 2024 6 10 in
  let av := ["2024-06-02T00:00:00Z"; "2024-06-07T00:00:00Z"; "2024-06-08T00:00:00Z"] in
  valid s /\ valid e /\
  ordinals_of (filter (fun date => mem date (desired_dates s e)) av)
    = Some [739039; 739044; 739045] /\
  StronglySorted Z.lt [739039; 739044; 739045] /\
  site_counted (desired_dates s e) 2 av = true.
Proof.
  assert (Hs : valid (mkdate 2024 6 1)) by (cbv; intuition discriminate).
  assert (He : valid (mkdate 2024 6 10)) by (cbv; intuition discriminate).
  assert (Ho : ordinals_of
                 (filter (fun date => mem date (desired_dates (mkdate 2024 6 1)
                                                  (mkdate 2024 6 10)))
                    ["2024-06-02T00:00:00Z"; "2024-06-07T00:00:00Z";
                     "2024-06-08T00:00:00Z"])
               = Some [739039; 739044; 739045]) by (vm_compute; reflexivity).
  assert (Hsorted : StronglySorted Z.lt [739039; 739044; 739045]).
  { repeat constructor. }
  split; [exact Hs | split; [exact He | split; [exact Ho | split; [exact Hsorted |]]]].
  apply (proj2 (ascending_listing_complete (mkdate 2024 6 1) (mkdate 2024 6 10) 2
                  _ _ Hs He Ho Hsorted)).
  exists 739044, 2. split; [|lia]. split; [lia|].
  intros k Hk. assert (k = 0 \/ k = 1) as [-> | ->] by lia.
  - right. left. reflexivity.
  - right. right. left. reflexivity.
Defined.

(* ================================================================= *)
(** ** Further properties of the normalizer *)

Lemma dict_get_None {V : Type} (data : dict V) k :
  dict_get data k = None <-> ~ In k (map fst data).
Proof.
  induction data as [|[k' v] data IH]; cbn [dict_get map fst In].
  - tauto.
  - destruct (String.eqb_spec k k') as [-> | Hne].
    + split; [discriminate | tauto].
    + rewrite IH. split; [intros H [E | Hin]; [congruence | tauto] | tauto].
Qed.

Lemma keys_setdefault_extend {A : Type} (data : dict (list A)) k v :
  map fst (setdefault_extend data k v) =
  if in_dec string_dec k (map fst data) then map fst data
  else map fst data ++ [k].
Proof.
  induction data as [|[k' v'] data IH]; [reflexivity|].
  cbn [setdefault_extend map fst].
  destruct (String.eqb_spec k k') as [-> | Hne].
  - cbn [map fst].
    destruct (in_dec string_dec k' (k' :: map fst data)) as [|Hn];
      [reflexivity|].
    exfalso. apply Hn. now left.
  - cbn [map fst]. rewrite IH.
    destruct (in_dec string_dec k (map fst data)) as [Hin | Hn],
             (in_dec string_dec k (k' :: map fst data)) as [Hin' | Hn'];
      try reflexivity.
    + exfalso. apply Hn'. now right.
    + destruct Hin' as [E | Hin']; [congruence | contradiction].
Qed.

Lemma keys_NoDup_setdefault_extend {A : Type} (data : dict (list A)) k v :
  NoDup (map fst data) -> NoDup (map fst (setdefault_extend data k v)).
Proof.
  intros H. rewrite keys_setdefault_extend.
  destruct (in_dec string_dec k (map fst data)) as [|Hn]; [exact H|].
  apply NoDup_app; [exact H | repeat constructor; intros [] | ].
  intros x Hx [<- | []]. contradiction.
Qed.

Lemma collapse_keys_NoDup api_data campsite_type :
  NoDup (map fst (collapse api_data campsite_type)).
Proof.
  unfold collapse.
  assert (G : forall data, NoDup (map fst data) ->
            NoDup (map fst (fold_left (month_step campsite_type) api_data data))).
  { induction api_data as [|md rest IH]; intros data H; [exact H|].
    cbn [fold_left]. apply IH. unfold month_step.
    revert data H. induction (campsites md) as [|[id cd] items IHi];
      intros data H; [exact H|].
    cbn [fold_left]. apply IHi. unfold campsite_step.
    destruct (available_of campsite_type cd); [exact H|].
    now apply keys_NoDup_setdefault_extend. }
  apply G. constructor.
Qed.

Lemma collapse_keys api_data campsite_type site :
  In site (map fst (collapse api_data campsite_type)) <->
  exists date, contributes api_data campsite_type site date.
Proof.
  pose proof (collapse_spec api_data campsite_type) as [Hne _].
  split.
  - intros Hin.
    destruct (dict_get (collapse api_data campsite_type) site) as [ds|] eqn:E.
    + destruct ds as [|d ds]; [now destruct (Hne _ _ E)|].
      exists d. apply dates_of_collapse_In. unfold dates_of. rewrite E. now left.
    + apply dict_get_None in E. contradiction.
  - intros (date & Hc). apply dates_of_collapse_In in Hc. unfold dates_of in Hc.
    destruct (dict_get (collapse api_data campsite_type) site) as [ds|] eqn:E;
      [|destruct Hc].
    destruct (in_dec string_dec site (map fst (collapse api_data campsite_type)))
      as [|Hn]; [assumption|].
    apply dict_get_None in Hn. congruence.
Qed.

(** X6. The output of the normalizer is a dict: no site identifier is a
    key twice; and its keys are exactly the sites of which some date
    passes the filters, so that the "maximum" the analyzer reports is the
    number of such sites. *)
Theorem normalizer_keys (api_data : list month_data)
    (campsite_type : option string) :
  NoDup (map fst (collapse api_data campsite_type)) /\
  forall site,
    In site (map fst (collapse api_data campsite_type)) <->
    exists date, contributes api_data campsite_type site date.
Proof.
  split; [apply collapse_keys_NoDup | apply collapse_keys].
Qed.

(** X7. Merging composes: the list of a site for two lists of payloads
    put one after the other is the list for the first followed by the list
    for the second.  Nothing is removed on the way: a payload given twice
    gives every date twice. *)
Theorem normalizer_appends (api_data1 api_data2 : list month_data)
    (campsite_type : option string) (site : string) :
  dates_of (collapse (api_data1 ++ api_data2) campsite_type) site =
    dates_of (collapse api_data1 campsite_type) site ++
    dates_of (collapse api_data2 campsite_type) site /\
  dates_of (collapse (api_data1 ++ api_data1) campsite_type) site =
    dates_of (collapse api_data1 campsite_type) site ++
    dates_of (collapse api_data1 campsite_type) site.
Proof.
  rewrite !(proj2 (collapse_spec _ campsite_type)).
  split; apply flat_map_app.
Qed.

Lemma contributes_without_filter api_data campsite_type site date :
  contributes api_data campsite_type site date ->
  contributes api_data None site date.
Proof.
  intros (md & cd & H1 & H2 & H3 & _). exists md, cd.
  split; [exact H1|]. split; [exact H2|]. split; [exact H3|].
  intros t [=].
Qed.

(** X8. A type filter only removes: every site and every date of the
    filtered output is in the output without filter, and the filtered
    output has at most as many sites. *)
Theorem filter_only_removes (api_data : list month_data)
    (campsite_type : option string) :
  (forall site date,
     In date (dates_of (collapse api_data campsite_type) site) ->
     In date (dates_of (collapse api_data None) site)) /\
  incl (map fst (collapse api_data campsite_type))
       (map fst (collapse api_data None)) /\
  (List.length (collapse api_data campsite_type) <=
   List.length (collapse api_data None))%nat.
Proof.
  assert (Hincl : incl (map fst (collapse api_data campsite_type))
                       (map fst (collapse api_data None))).
  { intros site Hin.
    apply collapse_keys. apply collapse_keys in Hin as (date & Hc).
    exists date. now apply contributes_without_filter with campsite_type. }
  split; [|split; [exact Hincl|]].
  - intros site date H. apply dates_of_collapse_In.
    apply dates_of_collapse_In in H.
    now apply contributes_without_filter with campsite_type.
  - rewrite <- (length_map fst (collapse api_data campsite_type)),
            <- (length_map fst (collapse api_data None)).
    apply NoDup_incl_length; [apply collapse_keys_NoDup | exact Hincl].
Qed.

(* ================================================================= *)
(** ** Further properties of the fetcher *)

Section Fetching.

Variable send_request : request -> outcome (option month_data).
Variable park_id : Z.

Lemma fetch_months_returns months : forall api_data sent,
  (forall m, In m months -> send_request (month_request park_id m) <> Raises) ->
  fetch_months send_request park_id months api_data sent =
  (Returns (api_data ++ flat_map (kept_reply send_request park_id) months),
   sent ++ map (month_request park_id) months).
Proof.
  induction months as [|m months IH]; intros api_data sent H.
  - cbn. now rewrite !app_nil_r.
  - cbn [fetch_months map flat_map]. fold (month_request park_id m).
    unfold kept_reply at 1.
    pose proof (H m (or_introl eq_refl)) as Hm.
    destruct (send_request (month_request park_id m)) as [[resp|]|];
      [| |contradiction].
    + rewrite IH by (intros; apply H; now right).
      now rewrite <- !app_assoc.
    + rewrite IH by (intros; apply H; now right).
      now rewrite <- !app_assoc.
Qed.

Lemma fetch_months_raises pre m post : forall api_data sent,
  (forall x, In x pre -> send_request (month_request park_id x) <> Raises) ->
  send_request (month_request park_id m) = Raises ->
  fetch_months send_request park_id (pre ++ m :: post) api_data sent =
  (Raises, sent ++ map (month_request park_id) (pre ++ [m])).
Proof.
  induction pre as [|x pre IH]; intros api_data sent H Hm.
  - cbn [app fetch_months map]. fold (month_request park_id m).
    now rewrite Hm.
  - cbn [app fetch_months map]. fold (month_request park_id x).
    pose proof (H x (or_introl eq_refl)) as Hx.
    destruct (send_request (month_request park_id x)) as [[resp|]|];
      [| |contradiction].
    + rewrite IH by (try assumption; intros; apply H; now right).
      now rewrite <- app_assoc.
    + rewrite IH by (try assumption; intros; apply H; now right).
      now rewrite <- app_assoc.
Qed.

End Fetching.

(** X9. When no request raises, the fetch returns: the months answered
    with a payload are merged in month order, the months answered with a
    status other than 200 are dropped, and every month was asked for. *)
Theorem failed_months_dropped
    (send_request : request -> outcome (option month_data)) (park_id : Z)
    (start_date end_date : datetime) (campsite_type : option string) :
  (forall m, In m (months_of start_date end_date) ->
     send_request (month_request park_id m) <> Raises) ->
  get_park_information send_request park_id start_date end_date campsite_type =
  (Returns (collapse (flat_map (kept_reply send_request park_id)
                        (months_of start_date end_date)) campsite_type),
   map (month_request park_id) (months_of start_date end_date)).
Proof.
  intros H. unfold get_park_information.
  now rewrite (fetch_months_returns send_request park_id _ [] [] H).
Qed.

Lemma failed_months_dropped_witness :
  let june := mkmonth [("1", mkcampsite "TENT" [("2024-06-28T00:00:00Z", "Available")])] in
  let send := fun rq : request =>
    if String.eqb (req_start_date rq) "2024-06-01T00:00:00.000Z"
    then Returns (Some june) else Returns None in
  (forall m, In m (months_of (mkdate 2024 6 25) (mkdate 2024 7 5)) ->
     send (month_request 232447 m) <> Raises) /\
  get_park_information send 232447 (mkdate 2024 6 25) (mkdate 2024 7 5) None =
  (Returns [("1", ["2024-06-28T00:00:00Z"])],
   [mkrequest 232447 "2024-06-01T00:00:00.000Z";
    mkrequest 232447 "2024-07-01T00:00:00.000Z"]).
Proof.
  set (june := mkmonth [("1", mkcampsite "TENT" [("2024-06-28T00:00:00Z", "Available")])]).
  set (send := fun rq : request =>
    if String.eqb (req_start_date rq) "2024-06-01T00:00:00.000Z"
    then Returns (Some june) else Returns None).
  assert (H : forall m, In m (months_of (mkdate 2024 6 25) (mkdate 2024 7 5)) ->
                send (month_request 232447 m) <> Raises).
  { intros m Hm. unfold send.
    destruct (String.eqb _ _); discriminate. }
  split; [exact H|].
  exact (failed_months_dropped send 232447 (mkdate 2024 6 25) (mkdate 2024 7 5)
           None H).
Defined.

(** X10. A request that raises ends the fetch: [get_park_information]
    raises, the months before it and the month itself have been asked for
    in order, and no later month is. *)
Theorem raising_request_stops_fetch
    (send_request : request -> outcome (option month_data)) (park_id : Z)
    (start_date end_date : datetime) (campsite_type : option string)
    (pre post : list datetime) (m : datetime) :
  months_of start_date end_date = pre ++ m :: post ->
  (forall x, In x pre -> send_request (month_request park_id x) <> Raises) ->
  send_request (month_request park_id m) = Raises ->
  get_park_information send_request park_id start_date end_date campsite_type =
  (Raises, map (month_request park_id) (pre ++ [m])).
Proof.
  intros E Hpre Hm. unfold get_park_information. rewrite E.
  now rewrite (fetch_months_raises send_request park_id pre m post [] [] Hpre Hm).
Qed.

Lemma raising_request_stops_fetch_witness :
  let send := fun _ : request => @Raises (option month_data) in
  months_of (mkdate 2024 6 25) (mkdate 2024 7 5) =
    [] ++ mkdate 2024 6 1 :: [mkdate 2024 7 1] /\
  send (month_request 232447 (mkdate 2024 6 1)) = Raises /\
  get_park_information send 232447 (mkdate 2024 6 25) (mkdate 2024 7 5) None =
  (Raises, [mkrequest 232447 "2024-06-01T00:00:00.000Z"]).
Proof.
  assert (E : months_of (mkdate 2024 6 25) (mkdate 2024 7 5) =
              [] ++ mkdate 2024 6 1 :: [mkdate 2024 7 1]) by reflexivity.
  split; [exact E|]. split; [reflexivity|].
  refine (raising_request_stops_fetch (fun _ => Raises) 232447
            (mkdate 2024 6 25) (mkdate 2024 7 5) None [] [mkdate 2024 7 1]
            (mkdate 2024 6 1) E _ eq_refl).
  intros x [].
Defined.

Lemma read_date_format_request d :
  valid d ->
  read_date "-%m-%dT00:00:00.000Z" (format_date d ISO_DATE_FORMAT_REQUEST) = Some d.
Proof.
  intros (Hy & Hm & Hd). unfold MINYEAR, MAXYEAR in Hy.
  pose proof (days_in_month_le (year d) (month d)).
  unfold read_date, format_date, ISO_DATE_FORMAT_REQUEST.
  cbn [strftime Ascii.eqb Bool.eqb].
  rewrite read_year_digits by lia.
  cbn [strptime_from Ascii.eqb Bool.eqb].
  change (same_letter "-" "-") with true. cbv iota.
  rewrite parse_m_pad2 by lia.
  change (same_letter "-" "-") with true. cbv iota.
  rewrite parse_d_pad2 by lia.
  cbn. destruct d as [y m dd]. reflexivity.
Qed.

Lemma NoDup_map_injective_on {A B : Type} (f : A -> B) (l : list A) :
  (forall x y, In x l -> In y l -> f x = f y -> x = y) ->
  NoDup l -> NoDup (map f l).
Proof.
  intros Hf Hl. induction Hl as [|x l Hx Hl IH]; cbn [map]; constructor.
  - rewrite in_map_iff. intros (y & E & Hy).
    apply Hf in E; [now subst | now right | now left].
  - apply IH. intros a b Ha Hb. apply Hf; now right.
Qed.

Lemma months_of_valid start_date end_date m :
  valid start_date -> valid end_date ->
  In m (months_of start_date end_date) -> valid m.
Proof.
  intros Hs He. rewrite (months_of_spec _ _ Hs He), in_map_iff.
  intros (i & <- & Hi). apply range_In in Hi.
  destruct Hs as (Hy & Hm & _), He as (Hy' & Hm' & _).
  unfold MINYEAR, MAXYEAR, month_index in *.
  unfold valid, first_of_month, MINYEAR, MAXYEAR. cbn [year month day].
  assert (1 <= i / 12 <= 9999 /\ 1 <= i mod 12 + 1 <= 12) as [? ?] by divmod.
  repeat split; try assumption; try lia.
  unfold days_in_month.
  destruct ((i mod 12 + 1 =? 2) && is_leap (i / 12)); [lia|].
  month_cases (i mod 12 + 1) H0; cbn; lia.
Qed.

Lemma fetch_months_prefix send_request park_id months : forall api_data sent,
  exists k,
    snd (fetch_months send_request park_id months api_data sent) =
    sent ++ map (month_request park_id) (firstn k months).
Proof.
  induction months as [|m months IH]; intros api_data sent.
  - exists 0%nat. cbn. now rewrite app_nil_r.
  - cbn [fetch_months]. fold (month_request park_id m).
    destruct (send_request (month_request park_id m)) as [[resp|]|].
    + destruct (IH (api_data ++ [resp]) (sent ++ [month_request park_id m]))
        as (k & ->).
      exists (S k). cbn [firstn map]. now rewrite <- app_assoc.
    + destruct (IH api_data (sent ++ [month_request park_id m])) as (k & ->).
      exists (S k). cbn [firstn map]. now rewrite <- app_assoc.
    + exists 1%nat. reflexivity.
Qed.

Lemma month_request_start park_id m :
  req_start_date (month_request park_id m) =
  format_date m ISO_DATE_FORMAT_REQUEST.
Proof. reflexivity. Qed.

Lemma month_request_inj park_id x y :
  valid x -> valid y ->
  month_request park_id x = month_request park_id y -> x = y.
Proof.
  intros Hx Hy E.
  pose proof (f_equal req_start_date E) as F.
  rewrite !month_request_start in F.
  pose proof (read_date_format_request x Hx) as P.
  rewrite F in P. rewrite (read_date_format_request y Hy) in P.
  now injection P.
Qed.

Lemma month_requests_NoDup park_id start_date end_date :
  valid start_date -> valid end_date ->
  NoDup (map (month_request park_id) (months_of start_date end_date)).
Proof.
  intros Hs He. apply NoDup_map_injective_on.
  - intros x y Hx Hy E.
    apply (months_of_valid _ _ _ Hs He) in Hx, Hy.
    now apply (month_request_inj park_id).
  - rewrite (months_of_spec _ _ Hs He).
    apply NoDup_map_injective; [|apply range_NoDup].
    intros i j. apply first_of_month_inj.
Qed.

(** X11. The fetcher never asks for a month twice: whatever the replies
    are, and whether the fetch returns or raises, the requests it has sent
    are pairwise distinct. *)
Theorem requests_distinct
    (send_request : request -> outcome (option month_data)) (park_id : Z)
    (start_date end_date : datetime) (campsite_type : option string) :
  valid start_date -> valid end_date ->
  NoDup (snd (get_park_information send_request park_id start_date end_date
                campsite_type)).
Proof.
  intros Hs He. unfold get_park_information.
  destruct (fetch_months_prefix send_request park_id
              (months_of start_date end_date) [] []) as (k & E).
  destruct (fetch_months send_request park_id (months_of start_date end_date) [] [])
    as [[r|] sent]; cbn [snd app] in *; subst sent.
  all: pose proof (month_requests_NoDup park_id _ _ Hs He) as N.
  all: rewrite <- (firstn_skipn k (months_of start_date end_date)), map_app in N.
  all: exact (NoDup_app_remove_r _ _ N).
Qed.

Lemma requests_distinct_witness :
  let s := mkdate 2024 11 25 in
  let e := mkdate 2025 2 1 in
  valid s /\ valid e /\
  NoDup (snd (get_park_information (fun _ => Returns None) 232447 s e None)).
Proof.
  assert (Hs : valid (mkdate 2024 11 25)) by (cbv; intuition discriminate).
  assert (He : valid (mkdate 2025 2 1)) by (cbv; intuition discriminate).
  split; [exact Hs | split; [exact He |]].
  exact (requests_distinct (fun _ => Returns None) 232447 _ _ None Hs He).
Defined.

(* ================================================================= *)
(** ** The window: calendar order, day counts and the default *)

(** X15. Ordinals follow the calendar: a date is not after another one
    exactly when its ordinal is not larger, so the number of days of the
    window is positive exactly when the start date is before the end
    date. *)
Theorem ordinals_follow_calendar (a b : datetime) :
  valid a -> valid b ->
  date_leb a b = (toordinal a <=? toordinal b) /\
  (0 <? days_between b a) = negb (date_leb b a).
Proof.
  intros Ha Hb.
  assert (G : forall x y, valid x -> valid y ->
            date_leb x y = (toordinal x <=? toordinal y)).
  { intros x y Hx Hy. unfold date_leb.
    destruct (Z.ltb_spec (year x) (year y)) as [Hlt | Hge]; cbn [orb].
    - pose proof (toordinal_lt_year x y Hx Hy Hlt).
      symmetry. apply Z.leb_le. lia.
    - destruct (Z.eqb_spec (year x) (year y)) as [Heq | Hne]; cbn [andb].
      + destruct (Z.ltb_spec (month x) (month y)) as [Hlt | Hge']; cbn [orb].
        * pose proof (toordinal_lt_month x y Hx Hy Heq Hlt).
          symmetry. apply Z.leb_le. lia.
        * destruct (Z.eqb_spec (month x) (month y)) as [Heq' | Hne']; cbn [andb].
          -- unfold toordinal, ymd2ord. rewrite Heq, Heq'.
             destruct (Z.leb_spec (day x) (day y)), (Z.leb_spec
               (days_before_year (year y) + days_before_month (year y) (month y) + day x)
               (days_before_year (year y) + days_before_month (year y) (month y) + day y));
               try reflexivity; lia.
          -- pose proof (toordinal_lt_month y x Hy Hx (eq_sym Heq) ltac:(lia)).
             symmetry. apply Z.leb_gt. lia.
      + pose proof (toordinal_lt_year y x Hy Hx ltac:(lia)).
        symmetry. apply Z.leb_gt. lia. }
  split; [apply G; assumption|].
  rewrite (G b a Hb Ha). unfold days_between.
  destruct (Z.ltb_spec 0 (toordinal b - toordinal a)),
           (Z.leb_spec (toordinal b) (toordinal a)); cbn [negb];
    try reflexivity; lia.
Qed.

Lemma ordinals_follow_calendar_witness :
  let a := mkdate 2023 12 31 in
  let b := mkdate 2024 3 1 in
  valid a /\ valid b /\
  date_leb a b = (toordinal a <=? toordinal b) /\
  (0 <? days_between b a) = negb (date_leb b a).
Proof.
  assert (Ha : valid (mkdate 2023 12 31)) by (cbv; intuition discriminate).
  assert (Hb : valid (mkdate 2024 3 1)) by (cbv; intuition discriminate).
  split; [exact Ha | split; [exact Hb |]].
  exact (ordinals_follow_calendar (mkdate 2023 12 31) (mkdate 2024 3 1) Ha Hb).
Defined.

Lemma add_months_8 y m d :
  1 <= m <= 12 ->
  add_months (mkdate y m d) 8 =
  if m <=? 4 then mkdate y (m + 8) (Z.min d (days_in_month y (m + 8)))
  else mkdate (y + 1) (m - 4) (Z.min d (days_in_month (y + 1) (m - 4))).
Proof.
  intros Hm. unfold add_months. cbn [year month day].
  destruct (Z.leb_spec m 4).
  - replace ((12 * y + (m - 1) + 8) / 12) with y by divmod.
    replace ((12 * y + (m - 1) + 8) mod 12 + 1) with (m + 8) by divmod.
    reflexivity.
  - replace ((12 * y + (m - 1) + 8) / 12) with (y + 1) by divmod.
    replace ((12 * y + (m - 1) + 8) mod 12 + 1) with (m - 4) by divmod.
    reflexivity.
Qed.

Lemma eight_months_later y m d :
  valid (mkdate y m d) -> m <= 4 \/ y <= 9998 ->
  valid (add_months (mkdate y m d) 8) /\
  242 <= days_between (add_months (mkdate y m d) 8) (mkdate y m d) <= 245.
Proof.
  unfold valid, MINYEAR, MAXYEAR. cbn [year month day].
  intros (Hy & Hm & Hd) Hroom.
  rewrite (add_months_8 y m d Hm).
  unfold days_between, toordinal, ymd2ord.
  rewrite days_in_month_length in Hd.
  destruct (Z.leb_spec m 4) as [Hle | Hgt]; cbn [year month day];
    rewrite !days_in_month_length, !days_before_month_preceding.
  - destruct (is_leap y).
    all: assert (E : m = 1 \/ m = 2 \/ m = 3 \/ m = 4) by lia.
    all: destruct E as [-> | [-> | [-> | ->]]].
    all: eval_closed Z.add; eval_closed month_length; eval_closed preceding1.
    all: lia.
  - rewrite days_before_year_succ.
    destruct (is_leap y), (is_leap (y + 1)).
    all: assert (E : m = 5 \/ m = 6 \/ m = 7 \/ m = 8 \/ m = 9 \/ m = 10 \/
                     m = 11 \/ m = 12) by lia.
    all: destruct E as [-> | [-> | [-> | [-> | [-> | [-> | [-> | ->]]]]]]].
    all: eval_closed Z.sub; eval_closed month_length; eval_closed preceding1.
    all: cbn [b2z]; lia.
Qed.

(** X14. When the start date or the end date is missing on the command
    line, both are replaced: the window runs from today to the same day
    eight months later (the last day of that month when it is shorter),
    which is a date and lies 242 to 245 days after today. *)
Theorem default_window (args : arguments) (today : datetime) :
  valid today -> month today <= 4 \/ year today <= 9998 ->
  arg_start_date args = None \/ arg_end_date args = None ->
  window args today = (today, add_months today 8) /\
  valid (add_months today 8) /\
  242 <= days_between (add_months today 8) today <= 245.
Proof.
  intros Hv Hroom Hnone. split.
  - unfold window.
    destruct Hnone as [-> | ->]; [reflexivity|].
    destruct (arg_start_date args); reflexivity.
  - destruct today as [y m d]. now apply eight_months_later.
Qed.

Lemma default_window_witness :
  let args := mkargs (Some (mkdate 2024 6 1)) None None None in
  let today := mkdate 2024 6 30 in
  valid today /\
  window args today = (today, mkdate 2025 2 28) /\
  days_between (mkdate 2025 2 28) today = 243.
Proof.
  assert (Hv : valid (mkdate 2024 6 30)) by (cbv; intuition discriminate).
  split; [exact Hv|].
  assert (Hroom : month (mkdate 2024 6 30) <= 4 \/ year (mkdate 2024 6 30) <= 9998)
    by (right; cbn; lia).
  destruct (default_window (mkargs (Some (mkdate 2024 6 1)) None None None)
              (mkdate 2024 6 30) Hv Hroom (or_intror eq_refl)) as (W & _ & _).
  split; [exact W | reflexivity].
Defined.

(* ================================================================= *)
(** ** [main] over several parks, and the exit codes *)

Section Parks.

Variable args : arguments.
Variable today : datetime.
Variable send_request : request -> outcome (option month_data).
Variable get_name_of_site : Z -> outcome (option string).

(** The flag only ever goes from [False] to [True]: starting the loop
    with another flag changes the result by a disjunction, not whether it
    raises. *)
Lemma main_loop_flag parks : forall availabilities,
  main_loop args today send_request get_name_of_site parks availabilities =
  match main_loop args today send_request get_name_of_site parks false with
  | Returns b => Returns (availabilities || b)
  | Raises => Raises
  end.
Proof.
  induction parks as [|park_id rest IH]; intros a.
  - cbn. now rewrite orb_false_r.
  - cbn [main_loop]. destruct (window args today) as [s e].
    destruct (fst (get_park_information send_request park_id s e
                     (arg_campsite_type args))); [|reflexivity].
    destruct (get_name_of_site park_id) as [[name|]|]; [|apply IH|reflexivity].
    destruct (get_num_available_sites a0 s e (arg_nights args))
      as [[[current maximum] out]|]; [|reflexivity].
    rewrite (IH (if current =? 0 then a else true)).
    rewrite (IH (if current =? 0 then false else true)).
    destruct (main_loop args today send_request get_name_of_site rest false) as [b|]; [|reflexivity].
    destruct (current =? 0); cbn [orb]; [reflexivity|].
    now rewrite orb_true_r.
Qed.

Lemma main_loop_app parks1 parks2 : forall availabilities,
  main_loop args today send_request get_name_of_site (parks1 ++ parks2) availabilities =
  match main_loop args today send_request get_name_of_site parks1 availabilities with
  | Returns a => main_loop args today send_request get_name_of_site parks2 a
  | Raises => Raises
  end.
Proof.
  induction parks1 as [|park_id rest IH]; intros a; [reflexivity|].
  cbn [app main_loop]. destruct (window args today) as [s e].
  destruct (fst (get_park_information send_request park_id s e
                   (arg_campsite_type args))); [|reflexivity].
  destruct (get_name_of_site park_id) as [[name|]|]; [|apply IH|reflexivity].
  destruct (get_num_available_sites a0 s e (arg_nights args))
    as [[[current maximum] out]|]; [|reflexivity].
  apply IH.
Qed.

Lemma main_app parks1 parks2 :
  main args today send_request get_name_of_site (parks1 ++ parks2) =
  match main args today send_request get_name_of_site parks1, main args today send_request get_name_of_site parks2 with
  | Returns b1, Returns b2 => Returns (b1 || b2)
  | _, _ => Raises
  end.
Proof.
  unfold main. rewrite main_loop_app.
  destruct (main_loop args today send_request get_name_of_site parks1 false) as [b1|]; [|reflexivity].
  rewrite main_loop_flag.
  destruct (main_loop args today send_request get_name_of_site parks2 false); reflexivity.
Qed.

Lemma analyzer_from_four (park_information : dict (list string))
    start_date end_date nights :
  valid start_date -> valid end_date ->
  4 <= effective_nights nights (days_between end_date start_date) ->
  get_num_available_sites park_information start_date end_date nights = None \/
  exists out,
    get_num_available_sites park_information start_date end_date nights =
    Some ((0, Z.of_nat (List.length park_information)), out).
Proof.
  intros Hs He Hn.
  destruct (get_num_available_sites park_information start_date end_date nights)
    as [[[c m] out]|] eqn:E; [right | now left].
  apply get_num_available_sites_some in E as (_ & Hc & Hm & _).
  rewrite count_zero_from_four in Hc by assumption.
  exists out. now rewrite Hc, Hm.
Qed.

Lemma main_loop_from_four parks :
  valid (fst (window args today)) -> valid (snd (window args today)) ->
  4 <= effective_nights (arg_nights args)
         (days_between (snd (window args today)) (fst (window args today))) ->
  main_loop args today send_request get_name_of_site parks false = Returns false \/ main_loop args today send_request get_name_of_site parks false = Raises.
Proof.
  intros Hs He Hn. induction parks as [|park_id rest IH]; [now left|].
  cbn [main_loop]. destruct (window args today) as [s e]. cbn [fst snd] in *.
  destruct (fst (get_park_information send_request park_id s e
                   (arg_campsite_type args))) as [info|]; [|now right].
  destruct (get_name_of_site park_id) as [[name|]|]; [|exact IH|now right].
  destruct (analyzer_from_four info s e (arg_nights args) Hs He Hn)
    as [-> | (out & ->)]; [now right | exact IH].
Qed.

Lemma run_groups_app parks_dict1 parks_dict2 :
  run_groups args today send_request get_name_of_site
    (parks_dict1 ++ parks_dict2) =
  run_groups args today send_request get_name_of_site parks_dict1 +
  run_groups args today send_request get_name_of_site parks_dict2.
Proof.
  rewrite !run_groups_counts, filter_app, length_app. lia.
Qed.

End Parks.

(** X12. [main] over two lists of parks put one after the other: it
    raises as soon as one of the two raises, even when the first had found
    availability, and otherwise returns the disjunction of the two
    results. *)
Theorem main_over_parks (args : arguments) (today : datetime)
    (send_request : request -> outcome (option month_data))
    (get_name_of_site : Z -> outcome (option string))
    (parks1 parks2 : list Z) :
  main args today send_request get_name_of_site (parks1 ++ parks2) =
    match main args today send_request get_name_of_site parks1,
          main args today send_request get_name_of_site parks2 with
    | Returns b1, Returns b2 => Returns (b1 || b2)
    | _, _ => Raises
    end.
Proof. apply main_app. Qed.

(** X13. The exit code of grouped-file mode is the number of groups for
    which [main] returned [False]; it lies between 0 and the number of
    groups, and the code of two lists of groups put one after the other is
    the sum of their codes. *)
Theorem grouped_exit_code (args : arguments) (today : datetime)
    (send_request : request -> outcome (option month_data))
    (get_name_of_site : Z -> outcome (option string))
    (parks_dict1 parks_dict2 : dict (list Z)) :
  run_groups args today send_request get_name_of_site parks_dict1 =
    Z.of_nat (List.length
      (filter (no_availability args today send_request get_name_of_site)
         parks_dict1)) /\
  0 <= run_groups args today send_request get_name_of_site parks_dict1
    <= Z.of_nat (List.length parks_dict1) /\
  run_groups args today send_request get_name_of_site
    (parks_dict1 ++ parks_dict2) =
  run_groups args today send_request get_name_of_site parks_dict1 +
  run_groups args today send_request get_name_of_site parks_dict2.
Proof.
  split; [apply run_groups_counts|]. split; [|apply run_groups_app].
  rewrite run_groups_counts.
  pose proof (filter_length_le
                (no_availability args today send_request get_name_of_site)
                parks_dict1). lia.
Qed.

(** X16. With a nights value of four or more in effect, which is the
    case when [--nights] is left out on a window of four days or more,
    [main] never reports availability: it returns [False] or raises,
    whatever the service answers. *)
Theorem main_finds_nothing_from_four_nights (args : arguments)
    (today : datetime)
    (send_request : request -> outcome (option month_data))
    (get_name_of_site : Z -> outcome (option string)) (parks : list Z) :
  valid (fst (window args today)) -> valid (snd (window args today)) ->
  4 <= effective_nights (arg_nights args)
         (days_between (snd (window args today)) (fst (window args today))) ->
  main args today send_request get_name_of_site parks = Returns false \/
  main args today send_request get_name_of_site parks = Raises.
Proof. intros Hs He Hn. now apply main_loop_from_four. Qed.

Lemma main_finds_nothing_from_four_nights_witness :
  let args := mkargs (Some (mkdate 2024 6 1)) (Some (mkdate 2024 6 30)) None None in
  let today := mkdate 2024 5 1 in
  let june := mkmonth [("1", mkcampsite "TENT"
                 [("2024-06-07T00:00:00Z", "Available");
                  ("2024-06-08T00:00:00Z", "Available");
                  ("2024-06-09T00:00:00Z", "Available")])] in
  let send := fun _ : request => Returns (Some june) in
  let name := fun _ : Z => Returns (Some "Camp") in
  valid (fst (window args today)) /\ valid (snd (window args today)) /\
  4 <= effective_nights (arg_nights args)
         (days_between (snd (window args today)) (fst (window args today))) /\
  main args today send name [232447] = Returns false.
Proof.
  set (args := mkargs (Some (mkdate 2024 6 1)) (Some (mkdate 2024 6 30)) None None).
  set (today := mkdate 2024 5 1).
  assert (Hs : valid (fst (window args today))) by (cbv; intuition discriminate).
  assert (He : valid (snd (window args today))) by (cbv; intuition discriminate).
  assert (Hn : 4 <= effective_nights (arg_nights args)
                 (days_between (snd (window args today)) (fst (window args today))))
    by (vm_compute; discriminate).
  split; [exact Hs | split; [exact He | split; [exact Hn |]]].
  destruct (main_finds_nothing_from_four_nights args today
              (fun _ => Returns (Some (mkmonth [("1", mkcampsite "TENT"
                 [("2024-06-07T00:00:00Z", "Available");
                  ("2024-06-08T00:00:00Z", "Available");
                  ("2024-06-09T00:00:00Z", "Available")])])))
              (fun _ => Returns (Some "Camp")) [232447] Hs He Hn) as [H | H].
  - exact H.
  - vm_compute in H. discriminate H.
Defined.

Lemma ordinals_of_None available :
  ordinals_of available = None <->
  exists dstr, In dstr available /\
               strptime dstr ISO_DATE_FORMAT_RESPONSE = None.
Proof.
  induction available as [|s l IH]; cbn [ordinals_of].
  - split; [discriminate | intros (d & [] & _)].
  - destruct (strptime s ISO_DATE_FORMAT_RESPONSE) as [dt|] eqn:E.
    + destruct (ordinals_of l) as [os|].
      * split; [discriminate|]. intros (d & [<- | Hin] & Hd); [congruence|].
        assert (Habs : Some os = None) by (apply IH; now exists d).
        discriminate Habs.
      * split; [|reflexivity]. intros _.
        destruct (proj1 IH eq_refl) as (d & Hin & Hd).
        exists d. split; [now right | exact Hd].
    + split; [|reflexivity]. intros _. exists s. split; [now left | exact E].
Qed.

(** X17. [consecutive_nights] raises exactly when one of the strings it
    is given is not a date in the response format; otherwise it returns,
    with the answer and the lines of the runs of its ordinals. *)
Theorem consecutive_nights_raises (available : list string) (nights : Z) :
  (consecutive_nights available nights = None <->
   exists dstr, In dstr available /\
                strptime dstr ISO_DATE_FORMAT_RESPONSE = None) /\
  (forall ords, ordinals_of available = Some ords ->
     consecutive_nights available nights =
     Some (existsb (long_enough nights) (runs ords),
           option_lines nights 0 (runs ords))).
Proof.
  split; [|intros ords; apply consecutive_nights_runs].
  rewrite <- ordinals_of_None. unfold consecutive_nights.
  destruct (ordinals_of available) as [os|]; [|tauto].
  destruct (fold_left (group_step nights) (groupby (keyed 0 os)) (0, [])).
  split; discriminate.
Qed.

(* ================================================================= *)
(** ** What the analyzer reports, and what it does not look at *)

(** X18. When the analyzer returns, the sites it has printed are the
    counted ones, in the order of the map and numbered from 1, and the
    count it returns is their number; on a window that starts in year
    1000 or later it does return. *)
Theorem sites_reported_in_order (park_information : dict (list string))
    (start_date end_date : datetime) (nights : option Z) :
  let counted :=
    filter (fun item => site_counted (desired_dates start_date end_date)
              (effective_nights nights (days_between end_date start_date))
              (snd item)) park_information in
  (forall num_available maximum out,
     get_num_available_sites park_information start_date end_date nights =
       Some ((num_available, maximum), out) ->
     num_available = Z.of_nat (List.length counted) /\
     site_lines out = numbered 0 (map fst counted)) /\
  (valid start_date -> valid end_date -> 1000 <= year start_date ->
   exists out,
     get_num_available_sites park_information start_date end_date nights =
       Some ((Z.of_nat (List.length counted),
              Z.of_nat (List.length park_information)), out) /\
     site_lines out = numbered 0 (map fst counted)).
Proof.
  intros counted. split.
  - intros num_available maximum out Hret.
    apply get_num_available_sites_some in Hret as (_ & Hn & _ & Hout).
    split; [exact Hn | exact Hout].
  - intros Hs He Hy.
    exact (get_num_available_sites_returns park_information _ _ nights Hs He Hy).
Qed.

Lemma sites_reported_in_order_witness :
  let s := mkdate 2024 6 1 in
  let e := mkdate 2024 6 10 in
  let pi := [("A", ["2024-06-07T00:00:00Z"]); ("B", ["2024-06-05T00:00:00Z"]);
             ("C", ["2024-06-08T00:00:00Z"])] in
  valid s /\ valid e /\ 1000 <= year s /\
  exists out,
    get_num_available_sites pi s e (Some 1) = Some ((2, 3), out) /\
    site_lines out = [(1, "A"); (2, "C")].
Proof.
  assert (Hs : valid (mkdate 2024 6 1)) by (cbv; intuition discriminate).
  assert (He : valid (mkdate 2024 6 10)) by (cbv; intuition discriminate).
  assert (Hy : 1000 <= year (mkdate 2024 6 1)) by (vm_compute; discriminate).
  split; [exact Hs | split; [exact He | split; [exact Hy |]]].
  exact (proj2 (sites_reported_in_order
                  [("A", ["2024-06-07T00:00:00Z"]); ("B", ["2024-06-05T00:00:00Z"]);
                   ("C", ["2024-06-08T00:00:00Z"])]
                  (mkdate 2024 6 1) (mkdate 2024 6 10) (Some 1)) Hs He Hy).
Defined.

Lemma filter_idem {A : Type} (f : A -> bool) (l : list A) :
  filter f (filter f l) = filter f l.
Proof.
  induction l as [|x l IH]; [reflexivity|].
  cbn [filter]. destruct (f x) eqn:E; [|exact IH].
  cbn [filter]. now rewrite E, IH.
Qed.

Lemma site_loop_restrict dates nights park_information : forall st,
  fold_left (site_step dates nights) (restrict dates park_information) st =
  fold_left (site_step dates nights) park_information st.
Proof.
  induction park_information as [|[site av] rest IH]; intros st; [reflexivity|].
  cbn [restrict map fold_left fst snd]. fold (restrict dates rest).
  rewrite IH. f_equal.
  destruct st as [[n out]|]; [|reflexivity].
  unfold site_step. now rewrite filter_idem.
Qed.

(** X19. Only the dates of the day set are looked at: leaving out of the
    map every date that is outside the window or not on a Friday, Saturday
    or Sunday changes neither the result nor what is printed. *)
Theorem outside_dates_ignored (park_information : dict (list string))
    (start_date end_date : datetime) (nights : option Z) :
  get_num_available_sites
    (restrict (desired_dates start_date end_date) park_information)
    start_date end_date nights =
  get_num_available_sites park_information start_date end_date nights.
Proof.
  unfold get_num_available_sites. rewrite site_loop_restrict.
  unfold restrict. now rewrite length_map.
Qed.

Lemma filter_Permutation {A : Type} (f : A -> bool) (l l' : list A) :
  Permutation l l' -> Permutation (filter f l) (filter f l').
Proof.
  induction 1 as [| x l l' _ IH | x y l | l l' l'' _ IH1 _ IH2].
  - constructor.
  - cbn [filter]. destruct (f x); [now constructor | exact IH].
  - cbn [filter]. destruct (f x), (f y);
      try apply Permutation_refl. apply perm_swap.
  - now transitivity (filter f l').
Qed.

Lemma forallb_Permutation {A : Type} (f : A -> bool) (l l' : list A) :
  Permutation l l' -> forallb f l = forallb f l'.
Proof.
  induction 1 as [| x l l' _ IH | x y l | l l' l'' _ IH1 _ IH2].
  - reflexivity.
  - cbn [forallb]. now rewrite IH.
  - cbn [forallb]. destruct (f x), (f y); reflexivity.
  - now transitivity (forallb f l').
Qed.

(** X20. The order of the sites in the map does not change the numbers
    returned: of two maps with the same items in another order, when the
    analyzer returns on one it returns the same count and the same
    maximum on the other, and it raises on one exactly when it raises on
    the other. *)
Theorem site_order_irrelevant (park_information park_information' : dict (list string))
    (start_date end_date : datetime) (nights : option Z) :
  Permutation park_information park_information' ->
  (forall c m out,
     get_num_available_sites park_information start_date end_date nights =
       Some ((c, m), out) ->
     exists out',
       get_num_available_sites park_information' start_date end_date nights =
         Some ((c, m), out')) /\
  (get_num_available_sites park_information start_date end_date nights = None
   <-> get_num_available_sites park_information' start_date end_date nights
       = None).
Proof.
  intros P. split.
  - intros c m out Hret.
    apply get_num_available_sites_some in Hret as (Hp & -> & -> & _).
    rewrite (forallb_Permutation _ _ _ P) in Hp.
    unfold get_num_available_sites.
    destruct (site_loop_returns (desired_dates start_date end_date)
                (effective_nights nights (days_between end_date start_date))
                park_information' 0 [] Hp) as (out' & -> & _).
    exists out'. rewrite Z.add_0_l.
    rewrite (Permutation_length P).
    now rewrite (Permutation_length (filter_Permutation _ _ _ P)).
  - rewrite !get_num_available_sites_raises.
    now rewrite (forallb_Permutation _ _ _ P).
Qed.

Lemma site_order_irrelevant_witness :
  let s := mkdate 2024 6 1 in
  let e := mkdate 2024 6 10 in
  let a := ("A", ["2024-06-07T00:00:00Z"]) in
  let b := ("B", ["2024-06-05T00:00:00Z"]) in
  Permutation [a; b] [b; a] /\
  get_num_available_sites [a; b] s e (Some 1) =
    Some ((1, 2), [Option_line 1 ["2024-06-07"]; Available_site_line 1 "A"]) /\
  exists out',
    get_num_available_sites [b; a] s e (Some 1) = Some ((1, 2), out').
Proof.
  assert (P : Permutation [("A", ["2024-06-07T00:00:00Z"]); ("B", ["2024-06-05T00:00:00Z"])]
                          [("B", ["2024-06-05T00:00:00Z"]); ("A", ["2024-06-07T00:00:00Z"])])
    by apply perm_swap.
  assert (Hret : get_num_available_sites
                   [("A", ["2024-06-07T00:00:00Z"]); ("B", ["2024-06-05T00:00:00Z"])]
                   (mkdate 2024 6 1) (mkdate 2024 6 10) (Some 1) =
                 Some ((1, 2), [Option_line 1 ["2024-06-07"];
                                Available_site_line 1 "A"]))
    by (vm_compute; reflexivity).
  split; [exact P|]. split; [exact Hret|].
  exact (proj1 (site_order_irrelevant _ _ (mkdate 2024 6 1) (mkdate 2024 6 10)
                  (Some 1) P) _ _ _ Hret).
Defined.
